(** * DepthCutFront: the depth cutter and its image processor

    A shallow embedding of [src/js/depth-cutter.js] (class
    [BrowserDepthCutter]) and [src/js/image-processor.js] (class
    [BrowserImageProcessor]), with the properties of the partition of the
    depth scale, of the depth field, of the per-layer mask and of the job
    that [process] runs.

    Numbers.  A JavaScript number is modelled as an exact rational ([Q]);
    the layer count, the border width, pixel coordinates and array indices
    are integers.  [Math.round] rounds to the nearest integer with ties going
    up, which on exact numbers is [floor (x + 1/2)].  The rounding error of
    binary floating point is outside the model.  It can show at a tie of
    [Math.round]: with three layers and an overlap of 0.05 the source ends
    the first range at 33.3 where the exact sum 33.35 is rounded to 33.4.
    The value of an upper end is therefore stated only for overlaps that are
    whole tenths, and otherwise bounded.  On the concrete inputs that are
    evaluated below (layer counts 2, 4, 8, 16, 32 and 2048, overlaps 0,
    0.25, 1, 5, 10 and 100, gray values 0, 51, 204, 254 and 255) the source
    computes the same ranges and takes the same decisions.

    Images.  An image element or a canvas is its pixel buffer.  A decoded
    image has at least one pixel in each direction; what the canvas does to
    an empty bitmap is outside the model.  A canvas stores its pixels with
    premultiplied alpha, which keeps the alpha channel and loses the colour
    of a transparent pixel: [cutByDepthRange] is the buffer that the method
    writes to its canvas, and [cutCanvas] is what is read from that canvas.

    Effects.  [process] reads and updates the cutter and may throw: its
    model is a function from the cutter to an outcome and the new cutter.
    The calls of the progress callback are logged in the cutter; writes to
    the console are left out. *)

From Stdlib Require Import ZArith QArith Qround Lqa Lia List String DecimalString.
From Stdlib Require Import Ascii DecimalNat Sorted.
From stdpp Require Import base list.
Import ListNotations.

Local Open Scope Q_scope.

(** ** JavaScript arithmetic used by the source *)

(** [Math.round(x)] *)
Definition Math_round (x : Q) : Z := Qfloor (x + (1 # 2)).

(** [Math.round(x * 10) / 10]: one decimal is kept. *)
Definition round1 (x : Q) : Q := inject_Z (Math_round (x * 10)) / 10.

(** [Math.min(a, b)] *)
Definition Math_min (a b : Q) : Q := if Qle_bool a b then a else b.

(** ** depth-cutter.js: the ranges *)

Record DepthRange : Type := mkRange { min : Q; max : Q }.

(** The body of the [for] loop of [generateDepthRanges], for the index [i]:
    the range pushed at that iteration. *)
Definition rangeAt (layerCount : Z) (depthOverlap : Q) (i : Z) : DepthRange :=
  let maxDepth0 := 100 in
  let stepSize := maxDepth0 / inject_Z layerCount in
  let minDepth := inject_Z (Math_round (stepSize * inject_Z i * 10)) / 10 in
  let maxDepth := inject_Z (Math_round (stepSize * inject_Z (i + 1) * 10)) / 10 in
  let maxDepth :=
    if (i <? layerCount - 1)%Z then Math_min 100 (maxDepth + depthOverlap)
    else maxDepth in
  let minDepth := inject_Z (Math_round (minDepth * 10)) / 10 in
  let maxDepth := inject_Z (Math_round (maxDepth * 10)) / 10 in
  {| min := minDepth; max := maxDepth |}.

(** [for (let i = 0; i < layerCount; i++) { ...; ranges.push(...) }]: the
    loop runs for i = 0, 1, ..., layerCount - 1, and not at all when
    [layerCount <= 0]. *)
Definition generateDepthRanges (layerCount : Z) (depthOverlap : Q)
  : list DepthRange :=
  fold_left
    (fun ranges i => ranges ++ [rangeAt layerCount depthOverlap (Z.of_nat i)])
    (seq 0 (Z.to_nat layerCount)) [].

(** The boundary between the bins [i - 1] and [i], in tenths: the integer
    that [Math.round(stepSize * i * 10)] yields. *)
Definition boundary (layerCount : Z) (i : Z) : Z :=
  Math_round (100 / inject_Z layerCount * inject_Z i * 10).

(** ** image-processor.js: pixel buffers

    An image element or a canvas is represented by its pixel buffer, as
    [ctx.getImageData(0, 0, width, height)] returns it: four channel values
    (red, green, blue, alpha) per pixel, row by row.  [drawImage(img, 0, 0)]
    onto a fresh canvas of the size of [img] followed by [getImageData]
    yields the buffer of [img]; [putImageData] stores the buffer it is
    given. *)

Record ImageData : Type := mkImage {
  width : nat;
  height : nat;
  data : list Z
}.

(** What every buffer read from a canvas satisfies. *)
Definition wf_image (img : ImageData) : Prop :=
  length (data img) = (width img * height img * 4)%nat /\
  Forall (fun v => (0 <= v <= 255)%Z) (data img).

Definition wf_imageb (img : ImageData) : bool :=
  (length (data img) =? width img * height img * 4)%nat &&
  forallb (fun v => (0 <=? v)%Z && (v <=? 255)%Z) (data img).

Inductive JsError : Type :=
  | ImageLoadError                (* new Error('图片加载失败') *)
  | FileReadError                 (* new Error('文件读取失败') *)
  | BlobError                     (* new Error('Canvas转换为Blob失败') *)
  | TypeError (message : string)  (* raised by the JavaScript engine *)
  | CutError (cause : JsError).   (* new Error(`深度切分失败: ${error.message}`) *)

Inductive result (A : Type) : Type :=
  | Ok (a : A)
  | Err (e : JsError).
Arguments Ok {A} a.
Arguments Err {A} e.

(** A [for] loop whose body may throw: the first exception leaves the loop. *)
Fixpoint forEachM {S : Type} (body : nat -> S -> result S) (l : list nat) (s : S)
  : result S :=
  match l with
  | [] => Ok s
  | i :: l' =>
      match body i s with
      | Ok s' => forEachM body l' s'
      | Err e => Err e
      end
  end.

(** [checkSizeMatch(img1, img2)] *)
Definition checkSizeMatch (img1 img2 : ImageData) : bool :=
  (width img1 =? width img2)%nat && (height img1 =? height img2)%nat.

(** [data[index]] on the buffer of a canvas; the buffer of a [w]x[h] canvas
    has [4*w*h] entries, so the reads of the source are in range (lemma
    [channel_in_range]) and the default is not reached. *)
Definition channel (d : list Z) (index : nat) : Z := default 0%Z (d !! index).

(** [const depth = (gray / 255) * 100] *)
Definition depthOfGray (gray : Z) : Q := (inject_Z gray / 255) * 100.

(** [convertDepthImageToData(depthImg)], on the pixels of the canvas. *)
Definition convertDepthImageToData (canvas : ImageData) : list (list Q) :=
  let d := data canvas in
  let w := width canvas in
  let h := height canvas in
  fold_left
    (fun depthData y =>
       let row :=
         fold_left
           (fun row x =>
              let index := ((y * w + x) * 4)%nat in
              let gray := channel d index in
              let depth := depthOfGray gray in
              row ++ [depth])
           (seq 0 w) [] in
       depthData ++ [row])
    (seq 0 h) [].

(** [depth < minDepth || depth >= maxDepth]; [depth] is [undefined] when the
    row has no entry [x], and both comparisons are then false. *)
Definition outOfRange (depth : option Q) (minDepth maxDepth : Q) : bool :=
  match depth with
  | Some d => negb (Qle_bool minDepth d) || Qle_bool maxDepth d
  | None => false
  end.

(** One iteration of the inner loop of [cutByDepthRange].  Reading
    [depthData[y][x]] throws a TypeError when [depthData] has no row [y];
    a write past the end of the typed array would be ignored. *)
Definition cutPixel (depthData : list (list Q)) (minDepth maxDepth : Q)
    (w y x : nat) (d : list Z) : result (list Z) :=
  match depthData !! y with
  | None => Err (TypeError "Cannot read properties of undefined")
  | Some row =>
      let depth := row !! x in
      let index := ((y * w + x) * 4)%nat in
      Ok (if outOfRange depth minDepth maxDepth
          then <[(index + 3)%nat := 0%Z]> d
          else d)
  end.

(** [cutByDepthRange(originalImg, depthData, minDepth, maxDepth)]: the two
    loops over the buffer [imageData.data], and the [imageData] that the
    method then hands to [ctx.putImageData].  The alpha channel of the canvas
    that the method returns is that of this buffer; the colours that are read
    from that canvas are given by [cutCanvas] below. *)
Definition cutByDepthRange (originalImg : ImageData) (depthData : list (list Q))
    (minDepth maxDepth : Q) : result ImageData :=
  let w := width originalImg in
  let h := height originalImg in
  match
    forEachM
      (fun y d => forEachM (cutPixel depthData minDepth maxDepth w y) (seq 0 w) d)
      (seq 0 h) (data originalImg)
  with
  | Ok d => Ok {| width := w; height := h; data := d |}
  | Err e => Err e
  end.

(** What is read from a canvas, by [getImageData] or by the encoder, after
    [ctx.putImageData(imageData, 0, 0)] with the buffer [d].  The canvas
    keeps its pixels with premultiplied alpha: the alpha of a pixel is read
    as it was written; its colours are read as they were written when the
    alpha is 255, and as 0 when the alpha is 0, the colour of a transparent
    pixel being lost; for an alpha in between, a colour [c] is read as
    [conv c alpha], a rounding that is left to the browser. *)
Definition canvasChannel (conv : Z -> Z -> Z) (d : list Z) (j : nat) : Z :=
  let alpha := channel d (j / 4 * 4 + 3) in
  if (j mod 4 =? 3)%nat then alpha
  else if (alpha =? 0)%Z then 0%Z
  else if (alpha =? 255)%Z then channel d j
  else conv (channel d j) alpha.

Definition putImageData (conv : Z -> Z -> Z) (d : list Z) : list Z :=
  imap (fun j _ => canvasChannel conv d j) d.

(** The canvas that [cutByDepthRange] returns, as it is read afterwards, for
    an image that has pixels. *)
Definition cutCanvas (conv : Z -> Z -> Z) (originalImg : ImageData)
    (depthData : list (list Q)) (minDepth maxDepth : Q) : result ImageData :=
  match cutByDepthRange originalImg depthData minDepth maxDepth with
  | Ok imageData =>
      Ok {| width := width imageData;
            height := height imageData;
            data := putImageData conv (data imageData) |}
  | Err e => Err e
  end.

(** The members that [class BrowserImageProcessor] declares, in the order of
    the source. *)
Definition BrowserImageProcessor_members : list string :=
  ["constructor"; "createCanvas"; "loadImageFromFile"; "loadImageFromDataUrl";
   "getImageData"; "imageDataToCanvas"; "resizeImage"; "checkSizeMatch";
   "autoAdjustDepthImage"; "convertDepthImageToData"; "cutByDepthThreshold";
   "cutByDepthRange"; "canvasToBlob"; "canvasToDataUrl"; "downloadCanvas";
   "createPreview"; "getImageInfo"; "showImageInfo"]%string.

Definition declares (name : string) : bool :=
  existsb (String.eqb name) BrowserImageProcessor_members.

(** [this.imageProcessor.addBorder]: the class declares no member of that
    name (lemma [addBorder_not_declared]), so the property lookup yields
    [undefined]. *)
Definition addBorder : option (ImageData -> Z -> ImageData) := None.

(** ** The browser

    What the source obtains from the browser: decoding a file or a data URL
    into an image (the promise resolves with the image or rejects), the
    resampling done by [drawImage] with a target size, and the encoding of a
    canvas ([canvas.toBlob] hands [null] to its callback on failure). *)

Record Blob : Type := mkBlob { size : nat }.

Class Browser : Type := {
  File : Type;
  decodeFile : File -> result ImageData;
  decodeDataUrl : string -> result ImageData;
  (* the pixels that [drawImage(img, 0, 0, w, h)] paints on a [w]x[h] canvas *)
  drawImageScaled : ImageData -> nat -> nat -> list Z;
  toBlob : ImageData -> option Blob
}.

Section ImageProcessor.
Context {B : Browser}.

(** [loadImageFromFile(file)] *)
Definition loadImageFromFile (file : File) : result ImageData := decodeFile file.

(** [loadImageFromDataUrl(dataUrl)] *)
Definition loadImageFromDataUrl (dataUrl : string) : result ImageData :=
  decodeDataUrl dataUrl.

(** [resizeImage(img, targetWidth, targetHeight)] *)
Definition resizeImage (img : ImageData) (targetWidth targetHeight : nat)
  : ImageData :=
  {| width := targetWidth; height := targetHeight;
     data := drawImageScaled img targetWidth targetHeight |}.

(** [autoAdjustDepthImage(originalImg, depthImg)] *)
Definition autoAdjustDepthImage (originalImg depthImg : ImageData) : ImageData :=
  if checkSizeMatch originalImg depthImg
  then {| width := width depthImg; height := height depthImg;
          data := data depthImg |}
  else resizeImage depthImg (width originalImg) (height originalImg).

(** [canvasToBlob(canvas)] *)
Definition canvasToBlob (canvas : ImageData) : result Blob :=
  match toBlob canvas with
  | Some blob => Ok blob
  | None => Err BlobError
  end.

(** The extraction of the depth field, as [process] chains it (steps 2
    and 3). *)
Definition extractDepthField (originalImg depthImg : ImageData)
  : list (list Q) :=
  convertDepthImageToData (autoAdjustDepthImage originalImg depthImg).
End ImageProcessor.

(** ** depth-cutter.js: the job *)

(** One entry of [this.results].  [depthRange] is kept as the pair that the
    source prints as [`${range.min}~${range.max}`]; the two data URLs (of the
    layer and of its 150x150 preview) are encodings that take no part in the
    control flow and are left out. *)
Record Layer : Type := mkLayer {
  layer : nat;
  depthRange : DepthRange;
  filename : string;
  canvas : ImageData;
  blob : Blob;
  layerSize : nat
}.

(** The calls of [onProgress(progress, message)]. *)
Inductive Message : Type :=
  | MsgLoad                                        (* '加载图像...' *)
  | MsgResize                                      (* '调整图像尺寸...' *)
  | MsgConvert                                     (* '转换深度数据...' *)
  | MsgLayer (i total : nat) (range : DepthRange)  (* `处理层级 ${i + 1}/${totalLayers} ...` *)
  | MsgDone.                                       (* '处理完成！' *)

Record BrowserDepthCutter : Type := mkCutter {
  layerCount : Z;
  depthOverlap : Q;
  borderWidth : Z;
  depthRanges : list DepthRange;
  results : list Layer;
  (* not a field of the source: the calls made to [onProgress] so far *)
  progressLog : list (Q * Message)
}.

(** [constructor(layerCount = 8, depthOverlap = 1, borderWidth = 0)] *)
Definition new_BrowserDepthCutter (layerCount : Z) (depthOverlap : Q)
    (borderWidth : Z) : BrowserDepthCutter :=
  {| layerCount := layerCount;
     depthOverlap := depthOverlap;
     borderWidth := borderWidth;
     depthRanges := generateDepthRanges layerCount depthOverlap;
     results := [];
     progressLog := [] |}.

(** A method body: it reads and updates the cutter, and returns or throws. *)
Definition M (A : Type) : Type := BrowserDepthCutter -> result A * BrowserDepthCutter.

Definition ret {A} (a : A) : M A := fun s => (Ok a, s).
Definition throw {A} (e : JsError) : M A := fun s => (Err e, s).
Definition bind {A C} (m : M A) (k : A -> M C) : M C :=
  fun s => match m s with
           | (Ok a, s') => k a s'
           | (Err e, s') => (Err e, s')
           end.
Definition lift {A} (r : result A) : M A := fun s => (r, s).
Definition get : M BrowserDepthCutter := fun s => (Ok s, s).
Definition setResults (rs : list Layer) : M unit :=
  fun s => (Ok tt, {| layerCount := layerCount s; depthOverlap := depthOverlap s;
                      borderWidth := borderWidth s; depthRanges := depthRanges s;
                      results := rs; progressLog := progressLog s |}).
Definition onProgress (progress : Q) (message : Message) : M unit :=
  fun s => (Ok tt, {| layerCount := layerCount s; depthOverlap := depthOverlap s;
                      borderWidth := borderWidth s; depthRanges := depthRanges s;
                      results := results s;
                      progressLog := progressLog s ++ [(progress, message)] |}).
(** [try { body } catch (error) { throw new Error(`深度切分失败: ...`) }] *)
Definition tryCatchRethrow {A} (body : M A) : M A :=
  fun s => match body s with
           | (Ok a, s') => (Ok a, s')
           | (Err e, s') => (Err (CutError e), s')
           end.

Declare Scope js_scope.
Delimit Scope js_scope with js.
Notation "x <- m ;; k" := (bind m (fun x => k))
  (at level 100, m at next level, right associativity) : js_scope.
Notation "m ;;; k" := (bind m (fun _ => k))
  (at level 100, right associativity) : js_scope.

(** [String(i).padStart(4, '0')] *)
Definition padStart4 (s : string) : string :=
  (String.concat "" (repeat "0" (4 - String.length s)) ++ s)%string.

Definition String_of_nat (i : nat) : string :=
  DecimalString.NilZero.string_of_uint (Nat.to_uint i).

(** [`${String(i).padStart(4, '0')}.png`] *)
Definition layerFilename (i : nat) : string :=
  (padStart4 (String_of_nat i) ++ ".png")%string.

(** [depthSource]: a data URL ([typeof depthSource === 'string']) or a file. *)
Inductive DepthSource {B : Browser} : Type :=
  | DataUrl (dataUrl : string)
  | DepthFile (file : File).

Section DepthCutter.
Context {B : Browser}.
Local Open Scope js_scope.

(** What one iteration of the loop of step 4 computes before it pushes:
    the canvas cut for [range], the border when [borderWidth > 0], the file
    name and the blob.  None of these steps touches the cutter. *)
Definition makeLayer (originalImg : ImageData) (depthData : list (list Q))
    (borderWidth : Z) (i : nat) (range : DepthRange) : result Layer :=
  match cutByDepthRange originalImg depthData (min range) (max range) with
  | Err e => Err e
  | Ok resultCanvas =>
      match
        (if (0 <? borderWidth)%Z
         then match addBorder with
              | Some f => Ok (f resultCanvas borderWidth)
              | None =>
                  Err (TypeError "this.imageProcessor.addBorder is not a function")
              end
         else Ok resultCanvas)
      with
      | Err e => Err e
      | Ok resultCanvas =>
          let filename := layerFilename i in
          match canvasToBlob resultCanvas with
          | Err e => Err e
          | Ok blob =>
              Ok {| layer := i + 1;
                    depthRange := range;
                    filename := filename;
                    canvas := resultCanvas;
                    blob := blob;
                    layerSize := size blob |}
          end
      end
  end.

(** The body of the loop of step 4 of [process], at index [i]. *)
Definition processLayer (originalImg : ImageData) (depthData : list (list Q))
    (totalLayers : nat) (i : nat) : M unit :=
  this <- get ;;
  match depthRanges this !! i with
  | None => throw (TypeError "Cannot read properties of undefined")
  | Some range =>
      let progress :=
        (30 + (inject_Z (Z.of_nat i + 1) / inject_Z (Z.of_nat totalLayers)) * 60)%Q in
      onProgress progress (MsgLayer i totalLayers range) ;;;
      newLayer <- lift (makeLayer originalImg depthData (borderWidth this) i range) ;;
      this <- get ;;
      setResults (results this ++ [newLayer])
  end.

(** [for (let i = 0; i < totalLayers; i++) { ... }] *)
Fixpoint processLayers (originalImg : ImageData) (depthData : list (list Q))
    (totalLayers : nat) (indices : list nat) : M unit :=
  match indices with
  | [] => ret tt
  | i :: rest =>
      processLayer originalImg depthData totalLayers i ;;;
      processLayers originalImg depthData totalLayers rest
  end.

(** [async process(imageFile, depthSource, onProgress)] *)
Definition process (imageFile : File) (depthSource : DepthSource)
  : M (list Layer) :=
  tryCatchRethrow
    (onProgress 10 MsgLoad ;;;
     originalImg <- lift (loadImageFromFile imageFile) ;;
     depthImg <-
       lift (match depthSource with
             | DataUrl dataUrl => loadImageFromDataUrl dataUrl   (* typeof depthSource === 'string' *)
             | DepthFile file => loadImageFromFile file
             end) ;;
     onProgress 20 MsgResize ;;;
     let adjustedDepthCanvas := autoAdjustDepthImage originalImg depthImg in
     onProgress 30 MsgConvert ;;;
     let depthData := convertDepthImageToData adjustedDepthCanvas in
     setResults [] ;;;
     this <- get ;;
     let totalLayers := length (depthRanges this) in
     processLayers originalImg depthData totalLayers (seq 0 totalLayers) ;;;
     onProgress 100 MsgDone ;;;
     this <- get ;;
     ret (results this)).
End DepthCutter.

(** [getAllResults()]: a copy of [this.results]. *)
Definition getAllResults (this : BrowserDepthCutter) : list Layer := results this.

Record Stats : Type := mkStats {
  totalLayers : nat;
  totalSize : nat;
  avgSize : Z;
  totalSizeMB : Q;
  statsRanges : list DepthRange
}.

(** [getStats()]: [null] when there are no results. *)
Definition getStats (this : BrowserDepthCutter) : option Stats :=
  if (length (results this) =? 0)%nat then None
  else
    let totalSize := fold_left (fun sum r => (sum + layerSize r)%nat) (results this) 0%nat in
    let avgSize := inject_Z (Z.of_nat totalSize) / inject_Z (Z.of_nat (length (results this))) in
    Some {| totalLayers := length (results this);
            totalSize := totalSize;
            avgSize := Math_round avgSize;
            totalSizeMB :=
              inject_Z (Math_round (inject_Z (Z.of_nat totalSize) / 1024 / 1024 * 100)) / 100;
            statsRanges := depthRanges this |}.

(** [cleanup()] *)
Definition cleanup (this : BrowserDepthCutter) : BrowserDepthCutter :=
  {| layerCount := layerCount this; depthOverlap := depthOverlap this;
     borderWidth := borderWidth this; depthRanges := depthRanges this;
     results := []; progressLog := progressLog this |}.

(** The fields that [process] leaves alone. *)
Definition same_config (c c' : BrowserDepthCutter) : Prop :=
  layerCount c' = layerCount c /\ depthOverlap c' = depthOverlap c /\
  borderWidth c' = borderWidth c /\ depthRanges c' = depthRanges c.

(** The image that [process] loads for [depthSource]. *)
Definition loadDepthSource {B : Browser} (depthSource : DepthSource)
  : result ImageData :=
  match depthSource with
  | DataUrl dataUrl => loadImageFromDataUrl dataUrl
  | DepthFile file => loadImageFromFile file
  end.

(** ** The mask predicate and the layers it leaves opaque *)

(** A pixel of depth [d] stays opaque in the layer of [range] when
    [cutByDepthRange] does not clear its alpha. *)
Definition accepts (range : DepthRange) (d : Q) : bool :=
  negb (outOfRange (Some d) (min range) (max range)).

(** The depth of pixel [(x, y)] in a depth field. *)
Definition depthAt (depthData : list (list Q)) (y x : nat) : option Q :=
  match depthData !! y with
  | Some row => row !! x
  | None => None
  end.

(** The four channels of pixel [(x, y)] of a buffer of width [w]. *)
Definition redIndex (w y x : nat) : nat := (y * w + x) * 4.
Definition alphaIndex (w y x : nat) : nat := (y * w + x) * 4 + 3.

(** Whether the loop body of [cutByDepthRange] clears the alpha of the pixel
    [p = (y, x)], and what it then does to the buffer. *)
Definition cleared (depthData : list (list Q)) (minDepth maxDepth : Q)
    (p : nat * nat) : bool :=
  outOfRange (depthAt depthData (fst p) (snd p)) minDepth maxDepth.

Definition clearStep (depthData : list (list Q)) (minDepth maxDepth : Q) (w : nat)
    (d : list Z) (p : nat * nat) : list Z :=
  if cleared depthData minDepth maxDepth p
  then <[alphaIndex w (fst p) (snd p) := 0%Z]> d
  else d.

(** The pixels in the order in which the two loops visit them. *)
Definition pixels (w h : nat) : list (nat * nat) :=
  flat_map (fun y => map (pair y) (seq 0 w)) (seq 0 h).

(** ** image-processor.js: the cut by a threshold and the preview *)

(** [depth < threshold]; false when [depth] is [undefined]. *)
Definition belowThreshold (depth : option Q) (threshold : Q) : bool :=
  match depth with
  | Some d => negb (Qle_bool threshold d)
  | None => false
  end.

(** One iteration of the inner loop of [cutByDepthThreshold]. *)
Definition thresholdPixel (depthData : list (list Q)) (threshold : Q)
    (w y x : nat) (d : list Z) : result (list Z) :=
  match depthData !! y with
  | None => Err (TypeError "Cannot read properties of undefined")
  | Some row =>
      let depth := row !! x in
      let index := ((y * w + x) * 4)%nat in
      Ok (if belowThreshold depth threshold
          then <[(index + 3)%nat := 0%Z]> d
          else d)
  end.

(** [cutByDepthThreshold(originalImg, depthData, threshold)] *)
Definition cutByDepthThreshold (originalImg : ImageData)
    (depthData : list (list Q)) (threshold : Q) : result ImageData :=
  let w := width originalImg in
  let h := height originalImg in
  match
    forEachM
      (fun y d => forEachM (thresholdPixel depthData threshold w y) (seq 0 w) d)
      (seq 0 h) (data originalImg)
  with
  | Ok d => Ok {| width := w; height := h; data := d |}
  | Err e => Err e
  end.



(** ** depth-cutter.js: names, lookups, downloads, validation *)

(** [s.lastIndexOf(c)] for a one-character [c]: the last position of [c], or
    [None] where the source gets [-1]. *)
Fixpoint lastIndexOf (c : Ascii.ascii) (s : string) : option nat :=
  match s with
  | EmptyString => None
  | String a s' =>
      match lastIndexOf c s' with
      | Some i => Some (S i)
      | None => if Ascii.eqb a c then Some 0%nat else None
      end
  end.

(** [getBaseName(filename)] *)
Definition getBaseName (filename : string) : string :=
  let lastDotIndex :=
    match lastIndexOf "."%char filename with
    | Some i => Z.of_nat i
    | None => (-1)%Z
    end in
  if (0 <? lastDotIndex)%Z
  then String.substring 0 (Z.to_nat lastDotIndex) filename
  else filename.

(** [layerIndex < 0 || layerIndex >= this.results.length] *)
Definition invalidLayerIndex (this : BrowserDepthCutter) (layerIndex : Z) : bool :=
  (layerIndex <? 0)%Z || (Z.of_nat (length (results this)) <=? layerIndex)%Z.

(** [getLayerResult(layerIndex)]: [null] for an invalid index. *)
Definition getLayerResult (this : BrowserDepthCutter) (layerIndex : Z)
  : option Layer :=
  if invalidLayerIndex this layerIndex then None
  else results this !! Z.to_nat layerIndex.

(** The exceptions of the download methods. *)
Inductive DownloadError : Type :=
  | InvalidLayerIndex            (* new Error('无效的层级索引') *)
  | NeedsJSZip                   (* new Error('需要JSZip库支持批量下载功能') *)
  | NothingSelected              (* new Error('请选择要下载的文件') *)
  | EncodingFailed (e : JsError).

(** [downloadLayer(layerIndex)]: the file offered for download, its name and
    its content ([downloadCanvas] encodes the canvas again). *)
Definition downloadLayer {B : Browser} (this : BrowserDepthCutter)
    (layerIndex : Z) : DownloadError + (string * Blob) :=
  if invalidLayerIndex this layerIndex then inl InvalidLayerIndex
  else
    match results this !! Z.to_nat layerIndex with
    | None => inl InvalidLayerIndex
    | Some result =>
        match canvasToBlob (canvas result) with
        | Ok blob => inr (filename result, blob)
        | Err e => inl (EncodingFailed e)
        end
    end.

(** [downloadAllAsZip()]: the calls of [zip.file(name, blob)], in order.
    [jsZip] says whether the global [JSZip] is defined. *)
Definition downloadAllAsZip (jsZip : bool) (this : BrowserDepthCutter)
  : DownloadError + list (string * Blob) :=
  if negb jsZip then inl NeedsJSZip
  else
    inr (fold_left (fun zip result => zip ++ [(filename result, blob result)])
                   (results this) []).

(** [downloadSelectedAsZip(selectedIndices)]; [None] is a [null] or
    [undefined] argument. *)
Definition downloadSelectedAsZip (jsZip : bool) (this : BrowserDepthCutter)
    (selectedIndices : option (list Z))
  : DownloadError + list (string * Blob) :=
  if negb jsZip then inl NeedsJSZip
  else
    match selectedIndices with
    | None => inl NothingSelected
    | Some [] => inl NothingSelected
    | Some indices =>
        inr (fold_left
               (fun zip index =>
                  if (0 <=? index)%Z && (index <? Z.of_nat (length (results this)))%Z
                  then match results this !! Z.to_nat index with
                       | Some result => zip ++ [(filename result, blob result)]
                       | None => zip
                       end
                  else zip)
               indices [])
    end.

(** The arguments of [validateInputs]: what the checks of the source can
    tell apart. *)
Inductive JsValue : Type :=
  | JsMissing                      (* null or undefined *)
  | JsString (s : string)
  | JsFile (type : string)         (* a File and its MIME type *)
  | JsOther (truthy : bool).       (* any other value *)

Inductive ValidationError : Type :=
  | NoImageFile           (* '请提供有效的原始图片文件' *)
  | NoDepthSource         (* '请提供深度图' *)
  | BadDepthSource        (* '深度图必须是Data URL字符串或File对象' *)
  | BadImageType          (* '不支持的图片格式，...' *)
  | BadDepthType.         (* '不支持的深度图格式，...' *)

Definition allowedTypes : list string :=
  ["image/jpeg"; "image/png"; "image/bmp"; "image/webp"]%string.

(** [allowedTypes.includes(type)] *)
Definition includes (l : list string) (s : string) : bool :=
  existsb (String.eqb s) l.

(** [!v] *)
Definition falsy (v : JsValue) : bool :=
  match v with
  | JsMissing => true
  | JsString s => String.eqb s ""
  | JsFile _ => false
  | JsOther truthy => negb truthy
  end.

(** [v instanceof File], [typeof v === 'string'] and [v.type]. *)
Definition isFile (v : JsValue) : bool :=
  match v with JsFile _ => true | _ => false end.

Definition isString (v : JsValue) : bool :=
  match v with JsString _ => true | _ => false end.

Definition fileType (v : JsValue) : string :=
  match v with JsFile type => type | _ => ""%string end.

(** [validateInputs(imageFile, depthSource)]: [None] when nothing is
    thrown. *)
Definition validateInputs (imageFile depthSource : JsValue)
  : option ValidationError :=
  if falsy imageFile || negb (isFile imageFile) then Some NoImageFile
  else if falsy depthSource then Some NoDepthSource
  else if negb (isString depthSource) && negb (isFile depthSource)
  then Some BadDepthSource
  else if negb (includes allowedTypes (fileType imageFile))
  then Some BadImageType
  else if isFile depthSource
          && negb (includes allowedTypes (fileType depthSource))
  then Some BadDepthType
  else None.

(** [estimateProcessingTime(imageFile)], from [imageFile.size]. *)
Definition estimateProcessingTime (this : BrowserDepthCutter) (fileSize : nat) : Z :=
  let sizeInMB := inject_Z (Z.of_nat fileSize) / (1024 * 1024) in
  let baseTime := 2 in
  let sizeTime := sizeInMB * (5 # 10) in
  let layerTime := inject_Z (layerCount this) * (1 # 10) in
  Math_round (baseTime + sizeTime + layerTime).

(** ** app.js: the layers that are ticked *)

(** [this.layerVisibility.forEach((isVisible, index) => { if (isVisible)
    selectedIndices.push(index) })] in [downloadSelectedFiles]. *)
Definition selectedIndices (layerVisibility : list bool) : list Z :=
  fold_left
    (fun selected (p : nat * bool) =>
       if snd p then selected ++ [Z.of_nat (fst p)] else selected)
    (combine (seq 0 (length layerVisibility)) layerVisibility) [].

(** [getVisibleResults()], for an array [layerVisibility]:
    [this.currentResults.filter((result, index) => this.layerVisibility[index])];
    an index past the end of [layerVisibility] reads [undefined]. *)
Definition getVisibleResults (currentResults : list Layer)
    (layerVisibility : list bool) : list Layer :=
  map snd
    (List.filter (fun p : nat * Layer => default false (layerVisibility !! fst p))
            (combine (seq 0 (length currentResults)) currentResults)).

(** What [zip.file] is called with for a layer. *)
Definition zipEntry (result : Layer) : string * Blob :=
  (filename result, blob result).

(** The positions that are ticked, counted from [a], and the entries of the
    layers at the ticked positions: the two lists are walked side by side. *)
Fixpoint tickedFrom (a : nat) (layerVisibility : list bool) : list nat :=
  match layerVisibility with
  | [] => []
  | b :: rest => (if b then [a] else []) ++ tickedFrom (S a) rest
  end.

Fixpoint tickedEntries (layerVisibility : list bool) (rs : list Layer)
  : list (string * Blob) :=
  match layerVisibility, rs with
  | b :: vs, r :: rs' => (if b then [zipEntry r] else []) ++ tickedEntries vs rs'
  | _, _ => []
  end.

(** ** What the entries of [this.results] have in common *)

(** Entry [k] is layer [k + 1], named after [k], cut for range [k], and its
    size is that of its blob. *)
Definition results_numbered (this : BrowserDepthCutter) : Prop :=
  forall k l, results this !! k = Some l ->
    layer l = (k + 1)%nat /\ filename l = layerFilename k /\
    depthRanges this !! k = Some (depthRange l) /\
    layerSize l = size (blob l).

(** ** Concrete browsers and images, used to evaluate the code *)

Module Fixtures.

(** Nearest-neighbour resampling. *)
Definition nearest (img : ImageData) (w h : nat) : list Z :=
  flat_map
    (fun y =>
       flat_map
         (fun x =>
            let sx := (x * width img / w)%nat in
            let sy := (y * height img / h)%nat in
            let k := ((sy * width img + sx) * 4)%nat in
            [channel (data img) k; channel (data img) (k + 1);
             channel (data img) (k + 2); channel (data img) (k + 3)])
         (seq 0 w))
    (seq 0 h).

(** A browser in which a file is its decoded image and every canvas can be
    encoded. *)
#[local] Instance plainBrowser : Browser :=
  {| File := ImageData;
     decodeFile := fun f => Ok f;
     decodeDataUrl := fun _ => Err ImageLoadError;
     drawImageScaled := nearest;
     toBlob := fun cv => Some (mkBlob (length (data cv))) |}.

(** A browser whose encoder fails on a canvas whose first pixel is
    transparent. *)
Definition failingBrowser : Browser :=
  {| File := ImageData;
     decodeFile := fun f => Ok f;
     decodeDataUrl := fun _ => Err ImageLoadError;
     drawImageScaled := nearest;
     toBlob := fun cv =>
                 match data cv !! 3%nat with
                 | Some 0%Z => None
                 | _ => Some (mkBlob (length (data cv)))
                 end |}.

(** Two opaque red pixels side by side. *)
Definition red2x1 : ImageData :=
  mkImage 2 1 [255; 0; 0; 255;  255; 0; 0; 255]%Z.

(** A depth image of the same size: black (gray 0), then white (gray 255). *)
Definition depth2x1 : ImageData :=
  mkImage 2 1 [0; 0; 0; 255;  255; 255; 255; 255]%Z.

(** A depth image of the same size: black (gray 0), then gray 204. *)
Definition depthGray2x1 : ImageData :=
  mkImage 2 1 [0; 0; 0; 255;  204; 204; 204; 255]%Z.


End Fixtures.

(** * Properties *)

(** ** Rounding *)

Section Rounding.

Lemma Math_round_comp (x y : Q) : x == y -> Math_round x = Math_round y.
Proof. intros E. unfold Math_round. now rewrite E. Qed.

Lemma Math_round_mono (x y : Q) : x <= y -> (Math_round x <= Math_round y)%Z.
Proof. intros L. unfold Math_round. apply Qfloor_resp_le. lra. Qed.

Lemma inject_Z_succ (k : Z) : inject_Z (k + 1) == inject_Z k + 1.
Proof. rewrite inject_Z_plus. reflexivity. Qed.

Lemma Math_round_Z (k : Z) : Math_round (inject_Z k) = k.
Proof.
  unfold Math_round.
  assert (L := Qfloor_le (inject_Z k + (1 # 2))).
  assert (U := Qlt_floor (inject_Z k + (1 # 2))).
  set (f := Qfloor (inject_Z k + (1 # 2))) in *.
  rewrite inject_Z_succ in U.
  assert (inject_Z f < inject_Z (k + 1)) as U'
    by (rewrite inject_Z_succ; lra).
  assert (inject_Z k < inject_Z (f + 1)) as L'
    by (rewrite inject_Z_succ; lra).
  rewrite <- Zlt_Qlt in U', L'. lia.
Qed.

(** A number that already has one decimal is left alone by the second
    rounding of the source. *)
Lemma Math_round_tenths (k : Z) : Math_round (inject_Z k / 10 * 10) = k.
Proof.
  rewrite <- (Math_round_Z k) at 2. apply Math_round_comp. field.
Qed.

Lemma Math_round_succ (x y : Q) :
  x + 1 <= y -> (Math_round x + 1 <= Math_round y)%Z.
Proof.
  intros L. unfold Math_round.
  assert (Lx := Qlt_floor (x + (1 # 2))).
  assert (Ly := Qlt_floor (y + (1 # 2))).
  assert (Fx := Qfloor_le (x + (1 # 2))).
  set (fx := Qfloor (x + (1 # 2))) in *.
  set (fy := Qfloor (y + (1 # 2))) in *.
  assert (inject_Z fx < inject_Z fy) as K.
  { rewrite inject_Z_succ in Ly. lra. }
  rewrite <- Zlt_Qlt in K. lia.
Qed.

Lemma Math_min_spec (a b : Q) :
  (a <= b /\ Math_min a b = a) \/ (b < a /\ Math_min a b = b).
Proof.
  unfold Math_min. destruct (Qle_bool a b) eqn:E.
  - left. split; [now apply Qle_bool_iff|reflexivity].
  - right. split; [|reflexivity].
    apply Qnot_le_lt. intros L. apply Qle_bool_iff in L. congruence.
Qed.

Lemma div10 (a : Q) : a / 10 == a * (1 # 10).
Proof. field. Qed.

Lemma inject_Z_div10_le (a b : Z) :
  (a <= b)%Z -> inject_Z a / 10 <= inject_Z b / 10.
Proof. intros L. rewrite Zle_Qle in L. rewrite !div10. lra. Qed.

Lemma inject_Z_div10_lt (a b : Z) :
  (a < b)%Z -> inject_Z a / 10 < inject_Z b / 10.
Proof. intros L. rewrite Zlt_Qlt in L. rewrite !div10. lra. Qed.

(** [round1] keeps a value that has one decimal, and is monotone. *)
Lemma round1_tenths (k : Z) : round1 (inject_Z k / 10) == inject_Z k / 10.
Proof. unfold round1. now rewrite Math_round_tenths. Qed.

Lemma round1_mono (x y : Q) : x <= y -> round1 x <= round1 y.
Proof.
  intros L. unfold round1. apply inject_Z_div10_le, Math_round_mono. lra.
Qed.

Lemma round1_comp (x y : Q) : x == y -> round1 x == round1 y.
Proof.
  intros E. unfold round1.
  rewrite (Math_round_comp (x * 10) (y * 10)); [reflexivity|now rewrite E].
Qed.

End Rounding.

(** ** The partition of the depth scale *)

Section Partition.

Lemma fold_left_push {A C : Type} (f : A -> C) (l : list A) (init : list C) :
  fold_left (fun acc i => acc ++ [f i]) l init = init ++ map f l.
Proof.
  revert init. induction l as [|a l IH]; intros init; simpl.
  - now rewrite app_nil_r.
  - rewrite IH, <- app_assoc. reflexivity.
Qed.

Lemma generateDepthRanges_map (layerCount : Z) (depthOverlap : Q) :
  generateDepthRanges layerCount depthOverlap =
  map (fun i => rangeAt layerCount depthOverlap (Z.of_nat i))
      (seq 0 (Z.to_nat layerCount)).
Proof. unfold generateDepthRanges. now rewrite fold_left_push. Qed.

Lemma generateDepthRanges_length (layerCount : Z) (depthOverlap : Q) :
  length (generateDepthRanges layerCount depthOverlap) = Z.to_nat layerCount.
Proof. now rewrite generateDepthRanges_map, length_map, length_seq. Qed.

Lemma generateDepthRanges_lookup (layerCount : Z) (depthOverlap : Q) (i : nat) :
  (i < Z.to_nat layerCount)%nat ->
  generateDepthRanges layerCount depthOverlap !! i =
  Some (rangeAt layerCount depthOverlap (Z.of_nat i)).
Proof.
  intros L. rewrite generateDepthRanges_map, list_lookup_fmap.
  rewrite lookup_seq_lt by assumption. reflexivity.
Qed.

Lemma generateDepthRanges_lookup_Some (layerCount : Z) (depthOverlap : Q)
    (i : nat) (r : DepthRange) :
  generateDepthRanges layerCount depthOverlap !! i = Some r ->
  (i < Z.to_nat layerCount)%nat /\
  r = rangeAt layerCount depthOverlap (Z.of_nat i).
Proof.
  intros H. assert (L : (i < Z.to_nat layerCount)%nat).
  { apply lookup_lt_Some in H. now rewrite generateDepthRanges_length in H. }
  split; [assumption|].
  rewrite generateDepthRanges_lookup in H by assumption. congruence.
Qed.

Variable N : Z.
Hypothesis N_pos : (1 <= N)%Z.

Lemma inject_N_pos : 0 < inject_Z N.
Proof. change 0 with (inject_Z 0). rewrite <- Zlt_Qlt. lia. Qed.

Lemma raw_eq (i : Z) :
  100 / inject_Z N * inject_Z i * 10 == 1000 * (inject_Z i / inject_Z N).
Proof. assert (P := inject_N_pos). field. lra. Qed.

Lemma frac_mono (i j : Z) :
  (i <= j)%Z -> inject_Z i / inject_Z N <= inject_Z j / inject_Z N.
Proof.
  intros L. apply Qmult_le_compat_r.
  - now rewrite <- Zle_Qle.
  - apply Qlt_le_weak, Qinv_lt_0_compat, inject_N_pos.
Qed.

Lemma frac_0 : inject_Z 0 / inject_Z N == 0.
Proof. assert (P := inject_N_pos). field. lra. Qed.

Lemma frac_N : inject_Z N / inject_Z N == 1.
Proof. assert (P := inject_N_pos). field. lra. Qed.

Lemma boundary_0 : boundary N 0 = 0%Z.
Proof.
  unfold boundary. rewrite (Math_round_comp _ (inject_Z 0)).
  - apply Math_round_Z.
  - rewrite raw_eq, frac_0. reflexivity.
Qed.

Lemma boundary_N : boundary N N = 1000%Z.
Proof.
  unfold boundary. rewrite (Math_round_comp _ (inject_Z 1000)).
  - apply Math_round_Z.
  - rewrite raw_eq, frac_N. reflexivity.
Qed.

Lemma boundary_mono (i j : Z) : (i <= j)%Z -> (boundary N i <= boundary N j)%Z.
Proof.
  intros L. unfold boundary. apply Math_round_mono.
  rewrite !raw_eq. apply frac_mono in L. lra.
Qed.

Lemma boundary_bounds (i : Z) :
  (0 <= i <= N)%Z -> (0 <= boundary N i <= 1000)%Z.
Proof.
  intros [L U]. rewrite <- boundary_0, <- boundary_N.
  split; now apply boundary_mono.
Qed.

(** With at most 1000 layers the step is at least one tenth, and two
    consecutive boundaries differ. *)
Lemma boundary_step (i : Z) :
  (N <= 1000)%Z -> (boundary N i + 1 <= boundary N (i + 1))%Z.
Proof.
  intros L. unfold boundary. apply Math_round_succ.
  rewrite !raw_eq, inject_Z_succ.
  assert (P := inject_N_pos).
  assert (K : 1 <= 1000 / inject_Z N).
  { apply Qle_shift_div_l; [assumption|].
    rewrite Zle_Qle in L. change (inject_Z 1000) with 1000 in L. lra. }
  assert (E : 1000 * ((inject_Z i + 1) / inject_Z N) ==
              1000 * (inject_Z i / inject_Z N) + 1000 / inject_Z N)
    by (field; lra).
  rewrite E. lra.
Qed.

Variable overlap : Q.

Lemma rangeAt_min (i : Z) :
  min (rangeAt N overlap i) == inject_Z (boundary N i) / 10.
Proof.
  unfold rangeAt; cbn [min]. fold (boundary N i).
  now rewrite Math_round_tenths.
Qed.

Lemma rangeAt_max_last (i : Z) :
  (N - 1 <= i)%Z ->
  max (rangeAt N overlap i) == inject_Z (boundary N (i + 1)) / 10.
Proof.
  intros L. unfold rangeAt; cbn [max]. fold (boundary N (i + 1)).
  destruct (Z.ltb_spec i (N - 1)); [lia|].
  now rewrite Math_round_tenths.
Qed.

Lemma rangeAt_max_inner (i : Z) :
  (i < N - 1)%Z ->
  max (rangeAt N overlap i) ==
  round1 (Math_min 100 (inject_Z (boundary N (i + 1)) / 10 + overlap)).
Proof.
  intros L. unfold rangeAt; cbn [max]. fold (boundary N (i + 1)).
  destruct (Z.ltb_spec i (N - 1)); [|lia]. reflexivity.
Qed.

End Partition.

Section MinLemmas.

Lemma Math_min_le_l (a b : Q) : Math_min a b <= a.
Proof. destruct (Math_min_spec a b) as [[L ->]|[L ->]]; lra. Qed.


Lemma Math_min_glb (a b c : Q) : c <= a -> c <= b -> c <= Math_min a b.
Proof. intros. destruct (Math_min_spec a b) as [[L ->]|[L ->]]; lra. Qed.



Lemma round1_100 : round1 100 == 100.
Proof. reflexivity. Qed.

End MinLemmas.

(** Consecutive ranges that leave no gap cover everything between the lower
    end of the first and the upper end of the last. *)
Lemma chain_cover (l : list DepthRange) (d : Q) :
  (forall i r r', l !! i = Some r -> l !! S i = Some r' -> min r' <= max r) ->
  forall r0 rl, head l = Some r0 -> last l = Some rl ->
  min r0 <= d -> d < max rl ->
  exists i r, l !! i = Some r /\ min r <= d /\ d < max r.
Proof.
  induction l as [|a [|b t] IH]; intros chain r0 rl Hh Hl Lo Hi.
  - discriminate.
  - simpl in Hh, Hl. injection Hh as <-. injection Hl as <-.
    exists 0%nat, a. auto.
  - simpl in Hh. injection Hh as <-.
    destruct (Qlt_le_dec d (max a)) as [In|Out].
    + exists 0%nat, a. auto.
    + assert (Lb : min b <= d).
      { specialize (chain 0%nat a b eq_refl eq_refl). lra. }
      destruct (IH (fun i r r' H H' => chain (S i) r r' H H') b rl eq_refl Hl Lb Hi)
        as (i & r & Hi' & Hr).
      exists (S i), r. auto.
Qed.

Section PartitionFacts.

Variable N : Z.
Hypothesis N_pos : (1 <= N)%Z.
Variable overlap : Q.

Lemma rangeAt_min_bounds (i : Z) :
  (0 <= i <= N)%Z ->
  0 <= min (rangeAt N overlap i) /\ min (rangeAt N overlap i) <= 100.
Proof.
  intros Hi. rewrite rangeAt_min.
  destruct (boundary_bounds N N_pos i Hi) as [L U].
  rewrite Zle_Qle in L, U.
  change (inject_Z 0) with 0 in L. change (inject_Z 1000) with 1000 in U.
  rewrite div10. lra.
Qed.

Lemma rangeAt_max_le_100 (i : Z) :
  (0 <= i < N)%Z -> max (rangeAt N overlap i) <= 100.
Proof.
  intros Hi. destruct (Z_lt_le_dec i (N - 1)) as [In|La].
  - rewrite rangeAt_max_inner by assumption.
    rewrite <- round1_100 at 2. apply round1_mono, Math_min_le_l.
  - rewrite rangeAt_max_last by assumption.
    replace (i + 1)%Z with N by lia. rewrite (boundary_N N N_pos).
    apply Qle_bool_iff. reflexivity.
Qed.

Lemma rangeAt_max_final : max (rangeAt N overlap (N - 1)) == 100.
Proof.
  rewrite rangeAt_max_last by lia.
  replace (N - 1 + 1)%Z with N by lia. rewrite (boundary_N N N_pos). reflexivity.
Qed.

Hypothesis overlap_nonneg : 0 <= overlap.

(** The upper end of a range is not below the next boundary. *)
Lemma rangeAt_max_ge_next (i : Z) :
  (0 <= i < N)%Z ->
  inject_Z (boundary N (i + 1)) / 10 <= max (rangeAt N overlap i).
Proof.
  intros Hi. destruct (Z_lt_le_dec i (N - 1)) as [In|La].
  - rewrite rangeAt_max_inner by assumption.
    rewrite <- (round1_tenths (boundary N (i + 1))) at 1.
    apply round1_mono, Math_min_glb; [|lra].
    assert (Hb : (0 <= i + 1 <= N)%Z) by lia.
    destruct (boundary_bounds N N_pos (i + 1) Hb) as [_ U].
    rewrite Zle_Qle in U. change (inject_Z 1000) with 1000 in U.
    rewrite div10. lra.
  - rewrite rangeAt_max_last by assumption. lra.
Qed.

Lemma rangeAt_min_le_max (i : Z) :
  (0 <= i < N)%Z -> min (rangeAt N overlap i) <= max (rangeAt N overlap i).
Proof.
  intros Hi. rewrite rangeAt_min.
  apply Qle_trans with (inject_Z (boundary N (i + 1)) / 10).
  - apply inject_Z_div10_le, boundary_mono; lia.
  - now apply rangeAt_max_ge_next.
Qed.

Lemma rangeAt_min_lt_max (i : Z) :
  (N <= 1000)%Z -> (0 <= i < N)%Z ->
  min (rangeAt N overlap i) < max (rangeAt N overlap i).
Proof.
  intros Hs Hi. rewrite rangeAt_min.
  apply Qlt_le_trans with (inject_Z (boundary N (i + 1)) / 10).
  - apply inject_Z_div10_lt. assert (S := boundary_step N N_pos i Hs). lia.
  - now apply rangeAt_max_ge_next.
Qed.

Lemma ranges_chain (i : nat) (r r' : DepthRange) :
  generateDepthRanges N overlap !! i = Some r ->
  generateDepthRanges N overlap !! S i = Some r' ->
  min r' <= max r.
Proof.
  intros H H'.
  apply generateDepthRanges_lookup_Some in H as [L ->].
  apply generateDepthRanges_lookup_Some in H' as [L' ->].
  rewrite rangeAt_min. replace (Z.of_nat (S i)) with (Z.of_nat i + 1)%Z by lia.
  apply rangeAt_max_ge_next. lia.
Qed.

Lemma ranges_head :
  head (generateDepthRanges N overlap) = Some (rangeAt N overlap 0).
Proof.
  rewrite head_lookup. apply (generateDepthRanges_lookup N overlap 0). lia.
Qed.

Lemma ranges_last :
  last (generateDepthRanges N overlap) = Some (rangeAt N overlap (N - 1)).
Proof.
  rewrite last_lookup, generateDepthRanges_length.
  rewrite generateDepthRanges_lookup by lia.
  do 2 f_equal. lia.
Qed.

(** Every depth below 100 is accepted by a range. *)
Lemma ranges_cover_below_100 (d : Q) :
  0 <= d -> d < 100 ->
  exists i r, generateDepthRanges N overlap !! i = Some r /\
              min r <= d /\ d < max r.
Proof.
  intros Lo Hi.
  apply (chain_cover _ d ranges_chain _ _ ranges_head ranges_last).
  - rewrite rangeAt_min, (boundary_0 N N_pos), div10.
    change (inject_Z 0) with 0. lra.
  - rewrite rangeAt_max_final. assumption.
Qed.

End PartitionFacts.

Lemma accepts_iff (r : DepthRange) (d : Q) :
  accepts r d = true <-> min r <= d /\ d < max r.
Proof.
  unfold accepts, outOfRange.
  rewrite negb_true_iff, orb_false_iff, negb_false_iff.
  rewrite Qle_bool_iff. split.
  - intros [L U]. split; [assumption|].
    apply Qnot_le_lt. intros C. apply Qle_bool_iff in C. congruence.
  - intros [L U]. split; [assumption|].
    destruct (Qle_bool (max r) d) eqn:E; [|reflexivity].
    apply Qle_bool_iff in E. lra.
Qed.

Lemma rangeAt_max_zero_overlap (N i : Z) :
  (1 <= N)%Z -> (0 <= i < N)%Z ->
  max (rangeAt N 0 i) == inject_Z (boundary N (i + 1)) / 10.
Proof.
  intros HN Hi. destruct (Z_lt_le_dec i (N - 1)) as [In|La].
  - rewrite rangeAt_max_inner by assumption.
    assert (Hb : (0 <= i + 1 <= N)%Z) by lia.
    destruct (boundary_bounds N HN (i + 1) Hb) as [_ U].
    rewrite Zle_Qle in U. change (inject_Z 1000) with 1000 in U.
    assert (E : Math_min 100 (inject_Z (boundary N (i + 1)) / 10 + 0) ==
                inject_Z (boundary N (i + 1)) / 10).
    { destruct (Math_min_spec 100 (inject_Z (boundary N (i + 1)) / 10 + 0))
        as [[L ->]|[L ->]]; rewrite div10 in *; lra. }
    rewrite (round1_comp _ _ E). apply round1_tenths.
  - now apply rangeAt_max_last.
Qed.

(** C3.  With no overlap and [N >= 1] layers, [generateDepthRanges] returns
    exactly [N] ranges, in ascending order, each ending where the next one
    starts, the first starting at 0 and the last ending at 100; every depth
    of [0, 100] lies between the ends of one of them. *)
Theorem partition_contiguous (N : Z) :
  (1 <= N)%Z ->
  let rs := generateDepthRanges N 0 in
  length rs = Z.to_nat N /\
  (forall i r r', rs !! i = Some r -> rs !! S i = Some r' ->
                  max r == min r' /\ min r <= min r') /\
  (exists r0, head rs = Some r0 /\ min r0 == 0) /\
  (exists rl, last rs = Some rl /\ max rl == 100) /\
  (forall d, 0 <= d <= 100 ->
             exists i r, rs !! i = Some r /\ min r <= d /\ d <= max r).
Proof.
  intros HN rs. subst rs. repeat split.
  - apply generateDepthRanges_length.
  - apply generateDepthRanges_lookup_Some in H as [L ->].
    apply generateDepthRanges_lookup_Some in H0 as [L' ->].
    rewrite rangeAt_max_zero_overlap, rangeAt_min by lia.
    replace (Z.of_nat (S i)) with (Z.of_nat i + 1)%Z by lia. reflexivity.
  - apply generateDepthRanges_lookup_Some in H as [L ->].
    apply generateDepthRanges_lookup_Some in H0 as [L' ->].
    rewrite !rangeAt_min. apply inject_Z_div10_le, boundary_mono; lia.
  - exists (rangeAt N 0 0). split; [now apply ranges_head|].
    rewrite rangeAt_min, boundary_0 by assumption. reflexivity.
  - exists (rangeAt N 0 (N - 1)). split; [now apply ranges_last|].
    now apply rangeAt_max_final.
  - intros d [Lo Hi]. destruct (Qlt_le_dec d 100) as [Lt|Ge].
    + destruct (ranges_cover_below_100 N HN 0 (Qle_refl 0) d Lo Lt)
        as (i & r & Hr & L & U).
      exists i, r. repeat split; [assumption|assumption|lra].
    + exists (Z.to_nat (N - 1)), (rangeAt N 0 (N - 1)). split.
      * rewrite generateDepthRanges_lookup by lia. do 2 f_equal. lia.
      * assert (Hb : (0 <= N - 1 <= N)%Z) by lia.
        destruct (rangeAt_min_bounds N HN 0 (N - 1) Hb) as [_ U].
        rewrite rangeAt_max_final by assumption. lra.
Qed.

Lemma partition_contiguous_witness :
  let rs := generateDepthRanges 4 0 in
  length rs = Z.to_nat 4 /\
  (forall i r r', rs !! i = Some r -> rs !! S i = Some r' ->
                  max r == min r' /\ min r <= min r') /\
  (exists r0, head rs = Some r0 /\ min r0 == 0) /\
  (exists rl, last rs = Some rl /\ max rl == 100) /\
  (forall d, 0 <= d <= 100 ->
             exists i r, rs !! i = Some r /\ min r <= d /\ d <= max r).
Proof. apply (partition_contiguous 4). lia. Defined.




(** C6 (as amended).  For [N >= 1] layers and an overlap [>= 0], every range
    satisfies [0 <= min <= max <= 100] (hence [max <= 100 + overlap]), and
    [min < max] when there are at most 1000 layers. *)
Theorem range_bounds (N : Z) (overlap : Q) :
  (1 <= N)%Z -> 0 <= overlap ->
  forall i r, generateDepthRanges N overlap !! i = Some r ->
    0 <= min r /\ min r <= max r /\ max r <= 100 /\ max r <= 100 + overlap /\
    ((N <= 1000)%Z -> min r < max r).
Proof.
  intros HN Hov i r H.
  apply generateDepthRanges_lookup_Some in H as [L ->].
  assert (Hi : (0 <= Z.of_nat i < N)%Z) by lia.
  assert (Hi' : (0 <= Z.of_nat i <= N)%Z) by lia.
  assert (U := rangeAt_max_le_100 N HN overlap _ Hi).
  repeat split.
  - now apply rangeAt_min_bounds.
  - now apply rangeAt_min_le_max.
  - exact U.
  - lra.
  - intros Hs. now apply rangeAt_min_lt_max.
Qed.

Lemma range_bounds_witness :
  (1 <= 32)%Z /\ 0 <= 1 /\
  forall i r, generateDepthRanges 32 1 !! i = Some r ->
    0 <= min r /\ min r <= max r /\ max r <= 100 /\ max r <= 100 + 1 /\
    ((32 <= 1000)%Z -> min r < max r).
Proof.
  split; [lia|]. split; [lra|].
  apply (range_bounds 32 1); [lia|lra].
Defined.

(** C6 as stated fails: with 2048 layers and no overlap the step is
    0.048828125, both ends of the first range round to 0, and [min < max]
    does not hold. *)
Lemma tiny_step_gives_empty_range :
  ~ (forall r, In r (generateDepthRanges 2048 0) ->
               0 <= min r /\ min r < max r /\ max r <= 100 + 0).
Proof.
  intros C.
  assert (H : In (rangeAt 2048 0 0) (generateDepthRanges 2048 0)).
  { rewrite generateDepthRanges_map. apply in_map_iff. exists 0%nat.
    split; [reflexivity|]. apply in_seq. vm_compute. lia. }
  destruct (C _ H) as (_ & S & _). vm_compute in S. discriminate S.
Qed.

(** C1, at the failing input: a white pixel of the depth image has depth
    [255 / 255 * 100 = 100], and no range accepts it, whatever the layer
    count and the overlap. *)
Theorem white_depth_rejected_by_every_range (N : Z) (overlap : Q) :
  Forall (fun r => accepts r (depthOfGray 255) = false)
         (generateDepthRanges N overlap).
Proof.
  apply Forall_lookup. intros i r H.
  apply generateDepthRanges_lookup_Some in H as [L ->].
  assert (HN : (1 <= N)%Z) by lia.
  assert (Hi : (0 <= Z.of_nat i < N)%Z) by lia.
  assert (U := rangeAt_max_le_100 N HN overlap _ Hi).
  unfold accepts, outOfRange.
  rewrite negb_false_iff, orb_true_iff. right.
  apply Qle_bool_iff.
  assert (E : depthOfGray 255 == 100) by reflexivity.
  rewrite E. exact U.
Qed.

(** The part of C1 that the code does have: every depth below 100 is
    accepted by at least one range. *)
Lemma depth_below_100_accepted (N : Z) (overlap d : Q) :
  (1 <= N)%Z -> 0 <= overlap -> 0 <= d -> d < 100 ->
  exists i r, generateDepthRanges N overlap !! i = Some r /\ accepts r d = true.
Proof.
  intros HN Hov Lo Hi.
  destruct (ranges_cover_below_100 N HN overlap Hov d Lo Hi) as (i & r & H & LU).
  exists i, r. split; [assumption|]. now apply accepts_iff.
Qed.

(** ** The depth field *)

Section DepthField.


Lemma wf_imageb_spec (img : ImageData) : wf_imageb img = true -> wf_image img.
Proof.
  unfold wf_imageb, wf_image. rewrite andb_true_iff, Nat.eqb_eq.
  intros [L F]. split; [assumption|].
  apply Forall_forall. intros v Hv. rewrite forallb_forall in F.
  apply list_elem_of_In in Hv.
  specialize (F v Hv). apply andb_true_iff in F as [F1 F2]. lia.
Qed.

Lemma pixel_index_lt (w h y x k : nat) :
  (y < h)%nat -> (x < w)%nat -> (k < 4)%nat ->
  ((y * w + x) * 4 + k < w * h * 4)%nat.
Proof. intros. nia. Qed.

(** The reads of a pixel of a canvas are in range. *)
Lemma channel_in_range (img : ImageData) (y x k : nat) :
  wf_image img -> (y < height img)%nat -> (x < width img)%nat -> (k < 4)%nat ->
  exists v, data img !! ((y * width img + x) * 4 + k)%nat = Some v /\
            channel (data img) ((y * width img + x) * 4 + k) = v /\
            (0 <= v <= 255)%Z.
Proof.
  intros [Len Rng] Hy Hx Hk.
  assert (I := pixel_index_lt _ _ _ _ _ Hy Hx Hk). rewrite <- Len in I.
  destruct (lookup_lt_is_Some_2 _ _ I) as [v Hv].
  exists v. unfold channel. rewrite Hv. repeat split; try reflexivity.
  - exact (proj1 (Forall_lookup_1 _ _ _ _ Rng Hv)).
  - exact (proj2 (Forall_lookup_1 _ _ _ _ Rng Hv)).
Qed.

Lemma convertDepthImageToData_map (cv : ImageData) :
  convertDepthImageToData cv =
  map (fun y =>
         map (fun x => depthOfGray (channel (data cv) (redIndex (width cv) y x)))
             (seq 0 (width cv)))
      (seq 0 (height cv)).
Proof.
  unfold convertDepthImageToData. cbv zeta.
  rewrite (fold_left_push
             (fun y => fold_left
                         (fun row x =>
                            row ++ [depthOfGray
                                      (channel (data cv) ((y * width cv + x) * 4))])
                         (seq 0 (width cv)) [])).
  simpl. apply map_ext. intros y. now rewrite fold_left_push.
Qed.

Lemma convert_length (cv : ImageData) :
  length (convertDepthImageToData cv) = height cv.
Proof. now rewrite convertDepthImageToData_map, length_map, length_seq. Qed.


Lemma convert_depthAt (cv : ImageData) (y x : nat) :
  (y < height cv)%nat -> (x < width cv)%nat ->
  depthAt (convertDepthImageToData cv) y x =
  Some (depthOfGray (channel (data cv) (redIndex (width cv) y x))).
Proof.
  intros Hy Hx. unfold depthAt.
  rewrite convertDepthImageToData_map, list_lookup_fmap.
  rewrite lookup_seq_lt by assumption. simpl.
  rewrite list_lookup_fmap, lookup_seq_lt by assumption. reflexivity.
Qed.

End DepthField.



(** ** The mask *)

Section Mask.

Variable depthData : list (list Q).
Variables minDepth maxDepth : Q.
Variable w : nat.

#[local] Abbreviation clears := (cleared depthData minDepth maxDepth).
#[local] Abbreviation step := (clearStep depthData minDepth maxDepth w).

Lemma cutPixel_Ok (y x : nat) (d : list Z) :
  is_Some (depthData !! y) ->
  cutPixel depthData minDepth maxDepth w y x d = Ok (step d (y, x)).
Proof.
  intros [row Hrow]. unfold cutPixel, clearStep, cleared, depthAt, alphaIndex.
  simpl. rewrite Hrow. reflexivity.
Qed.

Lemma cutRow_Ok (y : nat) (xs : list nat) (d : list Z) :
  is_Some (depthData !! y) ->
  forEachM (cutPixel depthData minDepth maxDepth w y) xs d =
  Ok (fold_left step (map (pair y) xs) d).
Proof.
  intros Hy. revert d. induction xs as [|x xs IH]; intros d; simpl.
  - reflexivity.
  - rewrite cutPixel_Ok by assumption. apply IH.
Qed.

Lemma cutRows_Ok (ys xs : list nat) (d : list Z) :
  (forall y, In y ys -> is_Some (depthData !! y)) ->
  forEachM (fun y d => forEachM (cutPixel depthData minDepth maxDepth w y) xs d)
           ys d =
  Ok (fold_left step (flat_map (fun y => map (pair y) xs) ys) d).
Proof.
  revert d. induction ys as [|y ys IH]; intros d Hys; simpl.
  - reflexivity.
  - rewrite cutRow_Ok by (apply Hys; now left).
    rewrite fold_left_app. apply IH. intros y' Hy'. apply Hys. now right.
Qed.

Lemma clearStep_length (d : list Z) (p : nat * nat) :
  length (step d p) = length d.
Proof. unfold clearStep. destruct (clears p); [apply length_insert|reflexivity]. Qed.

Lemma clear_length (ps : list (nat * nat)) (d : list Z) :
  length (fold_left step ps d) = length d.
Proof.
  revert d. induction ps as [|p ps IH]; intros d; simpl; [reflexivity|].
  now rewrite IH, clearStep_length.
Qed.

(** An entry that no cleared pixel addresses keeps its value. *)
Lemma clear_untouched (ps : list (nat * nat)) (d : list Z) (j : nat) :
  (forall p, In p ps -> clears p = true -> alphaIndex w (fst p) (snd p) <> j) ->
  fold_left step ps d !! j = d !! j.
Proof.
  revert d. induction ps as [|p ps IH]; intros d H; simpl; [reflexivity|].
  rewrite IH by (intros q Hq; apply H; now right).
  unfold clearStep. destruct (clears p) eqn:E; [|reflexivity].
  apply list_lookup_insert_ne. apply H; [now left|assumption].
Qed.

(** Every update writes 0 or nothing: an entry keeps its value or is 0. *)
Lemma clear_old_or_zero (ps : list (nat * nat)) (d : list Z) (j : nat) :
  fold_left step ps d !! j = d !! j \/
  fold_left step ps d !! j = Some 0%Z.
Proof.
  revert d. induction ps as [|p ps IH]; intros d; simpl; [now left|].
  destruct (IH (step d p)) as [E|E]; [|now right].
  rewrite E. unfold clearStep. destruct (clears p); [|now left].
  destruct (Nat.eq_dec (alphaIndex w (fst p) (snd p)) j) as [Eq|Ne].
  - subst j.
    destruct (Nat.lt_ge_cases (alphaIndex w (fst p) (snd p)) (length d)) as [Lt|Ge].
    + right. now apply list_lookup_insert_eq.
    + left. now rewrite list_insert_ge.
  - left. now apply list_lookup_insert_ne.
Qed.

Lemma clear_zero_stays (ps : list (nat * nat)) (d : list Z) (j : nat) :
  d !! j = Some 0%Z -> fold_left step ps d !! j = Some 0%Z.
Proof.
  intros H. destruct (clear_old_or_zero ps d j) as [E|E]; congruence.
Qed.

(** The entry that a cleared pixel addresses is 0 at the end. *)
Lemma clear_sets_zero (ps : list (nat * nat)) (d : list Z) (p : nat * nat) :
  In p ps -> clears p = true ->
  (alphaIndex w (fst p) (snd p) < length d)%nat ->
  fold_left step ps d !! alphaIndex w (fst p) (snd p) = Some 0%Z.
Proof.
  revert d. induction ps as [|q ps IH]; intros d Hin Hc Hlt; simpl.
  - destruct Hin.
  - destruct Hin as [->|Hin].
    + apply clear_zero_stays. unfold clearStep. rewrite Hc.
      now apply list_lookup_insert_eq.
    + apply IH; try assumption. now rewrite clearStep_length.
Qed.

Lemma alphaIndex_mod (y x : nat) : (alphaIndex w y x mod 4 = 3)%nat.
Proof.
  unfold alphaIndex. rewrite Nat.add_comm, Nat.Div0.mod_add. reflexivity.
Qed.

Lemma alphaIndex_inj (y x y' x' : nat) :
  (x < w)%nat -> (x' < w)%nat ->
  alphaIndex w y x = alphaIndex w y' x' -> y = y' /\ x = x'.
Proof.
  unfold alphaIndex. intros Hx Hx' E.
  assert (E' : (x + y * w = x' + y' * w)%nat) by lia.
  assert (D : ((x + y * w) / w = (x' + y' * w) / w)%nat) by now rewrite E'.
  rewrite !Nat.div_add, !Nat.div_small in D by lia.
  simpl in D. subst y'. split; [reflexivity|lia].
Qed.

Lemma in_pixels (ys xs : list nat) (p : nat * nat) :
  In p (flat_map (fun y => map (pair y) xs) ys) <-> In (fst p) ys /\ In (snd p) xs.
Proof.
  rewrite in_flat_map. split.
  - intros (y & Hy & Hp). apply in_map_iff in Hp as (x & <- & Hx). auto.
  - intros [Hy Hx]. exists (fst p). split; [assumption|].
    apply in_map_iff. exists (snd p). split; [now destruct p|assumption].
Qed.

End Mask.

(** When the depth field has a row for every row of the image, no read
    throws and [cutByDepthRange] is the run of [clearStep] over the pixels. *)
Lemma cutByDepthRange_Ok (originalImg : ImageData) (depthData : list (list Q))
    (minDepth maxDepth : Q) :
  (height originalImg <= length depthData)%nat ->
  cutByDepthRange originalImg depthData minDepth maxDepth =
  Ok {| width := width originalImg;
        height := height originalImg;
        data := fold_left (clearStep depthData minDepth maxDepth (width originalImg))
                          (pixels (width originalImg) (height originalImg))
                          (data originalImg) |}.
Proof.
  intros H. unfold cutByDepthRange. cbv zeta.
  rewrite cutRows_Ok; [reflexivity|].
  intros y Hy. apply in_seq in Hy. apply lookup_lt_is_Some_2. lia.
Qed.

Lemma in_pixels_iff (w h : nat) (p : nat * nat) :
  In p (pixels w h) <-> (fst p < h)%nat /\ (snd p < w)%nat.
Proof.
  unfold pixels. rewrite in_pixels, !in_seq. lia.
Qed.

(** The buffer that [cutByDepthRange] hands to [putImageData] has the
    dimensions of the colour image and the same length; every entry that is
    not an alpha channel (red, green, blue of every pixel) equals that of the
    colour image; the alpha of a pixel is that of the colour image when its
    depth is in range and 0 when it is out of range. *)
Theorem cut_changes_only_alpha (originalImg : ImageData)
    (depthData : list (list Q)) (minDepth maxDepth : Q) :
  wf_image originalImg ->
  (height originalImg <= length depthData)%nat ->
  exists out,
    cutByDepthRange originalImg depthData minDepth maxDepth = Ok out /\
    width out = width originalImg /\ height out = height originalImg /\
    length (data out) = length (data originalImg) /\
    (forall j, (j mod 4 <> 3)%nat -> data out !! j = data originalImg !! j) /\
    (forall y x, (y < height originalImg)%nat -> (x < width originalImg)%nat ->
       exists a,
         data originalImg !! alphaIndex (width originalImg) y x = Some a /\
         data out !! alphaIndex (width originalImg) y x =
         Some (if outOfRange (depthAt depthData y x) minDepth maxDepth
               then 0%Z else a)).
Proof.
  intros Wf Hrows. eexists. split; [now apply cutByDepthRange_Ok|].
  cbn [width height data]. repeat split.
  - apply clear_length.
  - intros j Hj. apply clear_untouched. intros p _ _ E.
    rewrite <- E, alphaIndex_mod in Hj. now apply Hj.
  - intros y x Hy Hx.
    destruct (channel_in_range originalImg y x 3 Wf Hy Hx) as (a & Ha & _);
      [lia|].
    exists a. split; [exact Ha|].
    destruct (outOfRange (depthAt depthData y x) minDepth maxDepth) eqn:E.
    + apply (clear_sets_zero _ _ _ _ _ _ (y, x)).
      * apply in_pixels_iff. simpl. lia.
      * exact E.
      * now apply lookup_lt_Some in Ha.
    + rewrite clear_untouched; [exact Ha|].
      intros [y' x'] Hp Hc Eq. apply in_pixels_iff in Hp. simpl in Hp, Eq.
      apply alphaIndex_inj in Eq as [-> ->]; [|lia|lia].
      unfold cleared in Hc. simpl in Hc. congruence.
Qed.

Lemma cut_changes_only_alpha_witness :
  let originalImg := Fixtures.red2x1 in
  let depthData := convertDepthImageToData Fixtures.depthGray2x1 in
  exists out,
    cutByDepthRange originalImg depthData 0 50 = Ok out /\
    width out = width originalImg /\ height out = height originalImg /\
    length (data out) = length (data originalImg) /\
    (forall j, (j mod 4 <> 3)%nat -> data out !! j = data originalImg !! j) /\
    (forall y x, (y < height originalImg)%nat -> (x < width originalImg)%nat ->
       exists a,
         data originalImg !! alphaIndex (width originalImg) y x = Some a /\
         data out !! alphaIndex (width originalImg) y x =
         Some (if outOfRange (depthAt depthData y x) 0 50
               then 0%Z else a)).
Proof.
  apply (cut_changes_only_alpha Fixtures.red2x1
           (convertDepthImageToData Fixtures.depthGray2x1) 0 50).
  - apply wf_imageb_spec. reflexivity.
  - vm_compute. lia.
Defined.

(** *** The canvas that is returned *)

Lemma pixel_channel_div (p k : nat) :
  (k < 4)%nat -> ((p * 4 + k) / 4 * 4 + 3 = p * 4 + 3)%nat.
Proof.
  intros Hk. rewrite (Nat.add_comm (p * 4) k), Nat.div_add by lia.
  rewrite (Nat.div_small k 4) by lia. reflexivity.
Qed.

Lemma pixel_channel_mod (p k : nat) : (k < 4)%nat -> ((p * 4 + k) mod 4 = k)%nat.
Proof.
  intros Hk. rewrite (Nat.add_comm (p * 4) k), Nat.Div0.mod_add.
  now apply Nat.mod_small.
Qed.

Lemma canvasChannel_pixel (conv : Z -> Z -> Z) (d : list Z) (p k : nat) :
  (k < 4)%nat ->
  canvasChannel conv d (p * 4 + k) =
  let alpha := channel d (p * 4 + 3) in
  if (k =? 3)%nat then alpha
  else if (alpha =? 0)%Z then 0%Z
  else if (alpha =? 255)%Z then channel d (p * 4 + k)
  else conv (channel d (p * 4 + k)) alpha.
Proof.
  intros Hk. unfold canvasChannel.
  rewrite pixel_channel_div, pixel_channel_mod by assumption. reflexivity.
Qed.

Lemma putImageData_lookup (conv : Z -> Z -> Z) (d : list Z) (j : nat) :
  (j < length d)%nat ->
  putImageData conv d !! j = Some (canvasChannel conv d j).
Proof.
  intros H. unfold putImageData. rewrite list_lookup_imap.
  destruct (lookup_lt_is_Some_2 d j H) as [v ->]. reflexivity.
Qed.

(** The pixels of the canvas that [cutByDepthRange] returns, by the outcome
    of the test of the loop. *)
Lemma cutCanvas_pixels (conv : Z -> Z -> Z) (originalImg : ImageData)
    (depthData : list (list Q)) (minDepth maxDepth : Q) :
  wf_image originalImg ->
  (0 < width originalImg)%nat -> (0 < height originalImg)%nat ->
  (height originalImg <= length depthData)%nat ->
  exists canvas,
    cutCanvas conv originalImg depthData minDepth maxDepth = Ok canvas /\
    width canvas = width originalImg /\ height canvas = height originalImg /\
    length (data canvas) = length (data originalImg) /\
    forall y x, (y < height originalImg)%nat -> (x < width originalImg)%nat ->
      let index := ((y * width originalImg + x) * 4)%nat in
      exists a,
        data originalImg !! (index + 3)%nat = Some a /\
        (outOfRange (depthAt depthData y x) minDepth maxDepth = true ->
         forall k, (k < 4)%nat -> data canvas !! (index + k)%nat = Some 0%Z) /\
        (outOfRange (depthAt depthData y x) minDepth maxDepth = false ->
         data canvas !! (index + 3)%nat = Some a /\
         forall k, (k < 3)%nat ->
           exists c,
             data originalImg !! (index + k)%nat = Some c /\
             data canvas !! (index + k)%nat =
             Some (if (a =? 255)%Z then c
                   else if (a =? 0)%Z then 0%Z
                   else conv c a)).
Proof.
  intros Wf Hw Hh Hrows. unfold cutCanvas.
  rewrite cutByDepthRange_Ok by assumption. eexists. split; [reflexivity|].
  cbn [width height data].
  set (w := width originalImg). set (h := height originalImg).
  set (d := data originalImg).
  set (d' := fold_left (clearStep depthData minDepth maxDepth w) (pixels w h) d).
  assert (L : length d' = length d) by apply clear_length.
  split; [reflexivity|]. split; [reflexivity|].
  split; [unfold putImageData; now rewrite length_imap|].
  intros y x Hy Hx. set (index := ((y * w + x) * 4)%nat).
  destruct (channel_in_range originalImg y x 3 Wf Hy Hx) as (a & Ha & _); [lia|].
  fold w d index in Ha.
  assert (A : d' !! (index + 3)%nat =
              Some (if outOfRange (depthAt depthData y x) minDepth maxDepth
                    then 0%Z else a)).
  { destruct (outOfRange (depthAt depthData y x) minDepth maxDepth) eqn:E.
    - apply (clear_sets_zero _ _ _ _ _ _ (y, x)).
      + apply in_pixels_iff. simpl. lia.
      + exact E.
      + now apply lookup_lt_Some in Ha.
    - unfold d'. rewrite clear_untouched; [exact Ha|].
      intros [y' x'] Hp Hc Eq. apply in_pixels_iff in Hp. simpl in Hp, Eq.
      apply alphaIndex_inj in Eq as [-> ->]; [|lia|lia].
      unfold cleared in Hc. simpl in Hc. congruence. }
  assert (C : forall k, (k < 3)%nat ->
                exists c, d !! (index + k)%nat = Some c /\
                          channel d' (index + k) = c).
  { intros k Hk.
    destruct (channel_in_range originalImg y x k Wf Hy Hx) as (c & Hc & _);
      [lia|].
    fold w d index in Hc. exists c. split; [exact Hc|].
    unfold channel, d'. rewrite clear_untouched; [now rewrite Hc|].
    intros q _ _ Eq.
    assert (M := alphaIndex_mod w (fst q) (snd q)).
    rewrite Eq in M. unfold index in M.
    rewrite pixel_channel_mod in M by lia. lia. }
  assert (G : forall k, (k < 4)%nat ->
                putImageData conv d' !! (index + k)%nat =
                Some (canvasChannel conv d' (index + k))).
  { intros k Hk. apply putImageData_lookup. rewrite L.
    destruct (channel_in_range originalImg y x k Wf Hy Hx) as (c & Hc & _);
      [lia|].
    now apply lookup_lt_Some in Hc. }
  assert (Ch : channel d' (index + 3) =
               if outOfRange (depthAt depthData y x) minDepth maxDepth
               then 0%Z else a).
  { unfold channel. now rewrite A. }
  exists a. split; [exact Ha|]. split.
  - intros E k Hk. rewrite G by assumption. f_equal.
    unfold index. rewrite canvasChannel_pixel by assumption.
    fold index. cbv zeta. rewrite Ch, E.
    destruct (k =? 3)%nat; reflexivity.
  - intros E. split.
    + rewrite G by lia. f_equal.
      unfold index. rewrite canvasChannel_pixel by lia.
      fold index. cbv zeta. rewrite Ch, E. reflexivity.
    + intros k Hk. destruct (C k Hk) as (c & Hc & Hc').
      exists c. split; [exact Hc|].
      rewrite G by lia. f_equal.
      unfold index. rewrite canvasChannel_pixel by lia.
      fold index. cbv zeta. rewrite Ch, E, Hc'.
      destruct (Nat.eqb_spec k 3) as [->|_]; [lia|].
      destruct (a =? 0)%Z eqn:E0.
      * apply Z.eqb_eq in E0. subst a. reflexivity.
      * reflexivity.
Qed.

Lemma outOfRange_outside (depth minDepth maxDepth : Q) :
  depth < minDepth \/ maxDepth <= depth ->
  outOfRange (Some depth) minDepth maxDepth = true.
Proof.
  intros H. unfold outOfRange. apply orb_true_iff.
  destruct H as [H|H].
  - left. apply negb_true_iff.
    destruct (Qle_bool minDepth depth) eqn:E; [|reflexivity].
    apply Qle_bool_iff in E. lra.
  - right. now apply Qle_bool_iff.
Qed.

Lemma outOfRange_inside (depth minDepth maxDepth : Q) :
  minDepth <= depth /\ depth < maxDepth ->
  outOfRange (Some depth) minDepth maxDepth = false.
Proof.
  intros [L U]. unfold outOfRange. apply orb_false_iff. split.
  - apply negb_false_iff. now apply Qle_bool_iff.
  - destruct (Qle_bool maxDepth depth) eqn:E; [|reflexivity].
    apply Qle_bool_iff in E. lra.
Qed.

(** C10 (as amended).  The canvas that [cutByDepthRange] returns has the
    dimensions of the colour image.  A pixel whose depth is out of range
    ([depth < minDepth] or [depth >= maxDepth]) is read from it as
    0, 0, 0, 0: its alpha is 0 and its colour is not kept.  A pixel whose
    depth is in range ([minDepth <= depth < maxDepth]), or that has no depth,
    keeps the alpha [a] of the colour image; its red, green and blue are
    those of the colour image when it is opaque ([a = 255]), 0 when
    [a = 0], and the colours as the canvas rounds them for an alpha in
    between. *)
Theorem canvas_after_cut (conv : Z -> Z -> Z) (originalImg : ImageData)
    (depthData : list (list Q)) (minDepth maxDepth : Q) :
  wf_image originalImg ->
  (0 < width originalImg)%nat -> (0 < height originalImg)%nat ->
  (height originalImg <= length depthData)%nat ->
  exists canvas,
    cutCanvas conv originalImg depthData minDepth maxDepth = Ok canvas /\
    width canvas = width originalImg /\ height canvas = height originalImg /\
    length (data canvas) = length (data originalImg) /\
    forall y x row,
      (y < height originalImg)%nat -> (x < width originalImg)%nat ->
      depthData !! y = Some row ->
      let index := ((y * width originalImg + x) * 4)%nat in
      exists a,
        data originalImg !! (index + 3)%nat = Some a /\
        let kept :=
          data canvas !! (index + 3)%nat = Some a /\
          forall k, (k < 3)%nat ->
            exists c,
              data originalImg !! (index + k)%nat = Some c /\
              data canvas !! (index + k)%nat =
              Some (if (a =? 255)%Z then c
                    else if (a =? 0)%Z then 0%Z
                    else conv c a) in
        match row !! x with
        | Some depth =>
            (depth < minDepth \/ maxDepth <= depth ->
             forall k, (k < 4)%nat -> data canvas !! (index + k)%nat = Some 0%Z) /\
            (minDepth <= depth /\ depth < maxDepth -> kept)
        | None => kept
        end.
Proof.
  intros Wf Hw Hh Hrows.
  destruct (cutCanvas_pixels conv originalImg depthData minDepth maxDepth
              Wf Hw Hh Hrows) as (canvas & E & W & H & L & P).
  exists canvas. split; [exact E|]. split; [exact W|]. split; [exact H|].
  split; [exact L|].
  intros y x row Hy Hx Hrow index.
  destruct (P y x Hy Hx) as (a & Ha & Out & In).
  fold index in Ha, Out, In.
  assert (D : depthAt depthData y x = row !! x).
  { unfold depthAt. now rewrite Hrow. }
  rewrite D in Out, In.
  exists a. split; [exact Ha|]. cbv zeta.
  destruct (row !! x) as [depth|].
  - split.
    + intros T. apply Out. now apply outOfRange_outside.
    + intros T. apply In. now apply outOfRange_inside.
  - apply In. reflexivity.
Qed.

Lemma canvas_after_cut_witness :
  let conv := fun (c _ : Z) => c in
  let originalImg := Fixtures.red2x1 in
  let depthData := convertDepthImageToData Fixtures.depthGray2x1 in
  exists canvas,
    cutCanvas conv originalImg depthData 0 50 = Ok canvas /\
    width canvas = width originalImg /\ height canvas = height originalImg /\
    length (data canvas) = length (data originalImg) /\
    forall y x row,
      (y < height originalImg)%nat -> (x < width originalImg)%nat ->
      depthData !! y = Some row ->
      let index := ((y * width originalImg + x) * 4)%nat in
      exists a,
        data originalImg !! (index + 3)%nat = Some a /\
        let kept :=
          data canvas !! (index + 3)%nat = Some a /\
          forall k, (k < 3)%nat ->
            exists c,
              data originalImg !! (index + k)%nat = Some c /\
              data canvas !! (index + k)%nat =
              Some (if (a =? 255)%Z then c
                    else if (a =? 0)%Z then 0%Z
                    else conv c a) in
        match row !! x with
        | Some depth =>
            (depth < 0 \/ 50 <= depth ->
             forall k, (k < 4)%nat -> data canvas !! (index + k)%nat = Some 0%Z) /\
            (0 <= depth /\ depth < 50 -> kept)
        | None => kept
        end.
Proof.
  apply (canvas_after_cut (fun (c _ : Z) => c) Fixtures.red2x1
           (convertDepthImageToData Fixtures.depthGray2x1) 0 50).
  - apply wf_imageb_spec. reflexivity.
  - vm_compute. lia.
  - vm_compute. lia.
  - vm_compute. lia.
Defined.

(** The canvas of the cut of two opaque red pixels, of depths 0 and 80, by
    the range 0~50: the second pixel is read as 0, 0, 0, 0. *)
Example cutCanvas_2x1 (conv : Z -> Z -> Z) :
  cutCanvas conv Fixtures.red2x1
            (convertDepthImageToData Fixtures.depthGray2x1) 0 50 =
  Ok (mkImage 2 1 [255; 0; 0; 255;  0; 0; 0; 0]%Z).
Proof. reflexivity. Qed.

(** C10 as stated fails on the canvas that is returned: in the cut of two
    opaque red pixels, of depths 0 and 80, by the range 0~50, the red of the
    second pixel is 255 in the colour image and 0 in the output, whatever
    the rounding of the canvas. *)
Lemma cleared_pixel_loses_its_colour :
  ~ (exists conv canvas,
       cutCanvas conv Fixtures.red2x1
                 (convertDepthImageToData Fixtures.depthGray2x1) 0 50 = Ok canvas /\
       forall j, (j mod 4 <> 3)%nat ->
                 data canvas !! j = data Fixtures.red2x1 !! j).
Proof.
  intros (conv & canvas & E & C).
  assert (E' : canvas = mkImage 2 1 [255; 0; 0; 255;  0; 0; 0; 0]%Z).
  { vm_compute in E. now injection E as <-. }
  subst canvas. specialize (C 4%nat). vm_compute in C.
  assert (N : 0%nat <> 3%nat) by lia.
  specialize (C N). discriminate C.
Qed.

(** C2, at the failing input.  With four layers and no overlap the final
    range is 75~100.  The second pixel of the depth image is white, its depth
    is 100, and the compositor clears its alpha in the final layer: the test
    [depth >= maxDepth] makes no exception for the final range. *)
Theorem white_pixel_cleared_in_final_layer :
  let depthData := convertDepthImageToData Fixtures.depth2x1 in
  exists r out,
    last (generateDepthRanges 4 0) = Some r /\
    min r == 75 /\ max r == 100 /\
    depthAt depthData 0 1 = Some (depthOfGray 255) /\
    depthOfGray 255 == 100 /\
    cutByDepthRange Fixtures.red2x1 depthData (min r) (max r) = Ok out /\
    data Fixtures.red2x1 !! alphaIndex 2 0 1 = Some 255%Z /\
    data out !! alphaIndex 2 0 1 = Some 0%Z.
Proof.
  cbv zeta.
  exists (mkRange (750 # 10) (1000 # 10)),
         (mkImage 2 1 [255; 0; 0; 0; 255; 0; 0; 0]%Z).
  repeat split.
Qed.

(** ** The job *)

(** Unfolding of the operations of [M], to run a method body. *)
Ltac run_js :=
  unfold bind, lift, onProgress, setResults, get, ret, throw, tryCatchRethrow.

Section Job.
Context {B : Browser}.

Variable originalImg : ImageData.
Variable depthData : list (list Q).
Variable total : nat.

Lemma processLayer_Ok (i : nat) (c : BrowserDepthCutter) (r : DepthRange)
    (l : Layer) :
  depthRanges c !! i = Some r ->
  makeLayer originalImg depthData (borderWidth c) i r = Ok l ->
  exists c',
    processLayer originalImg depthData total i c = (Ok tt, c') /\
    results c' = results c ++ [l] /\ same_config c c'.
Proof.
  intros Hr Hl. unfold processLayer. run_js.
  rewrite Hr. cbn. rewrite Hl. cbn.
  eexists. split; [reflexivity|]. cbn. repeat split.
Qed.

Lemma processLayer_Err (i : nat) (c : BrowserDepthCutter) (r : DepthRange)
    (e : JsError) :
  depthRanges c !! i = Some r ->
  makeLayer originalImg depthData (borderWidth c) i r = Err e ->
  exists c',
    processLayer originalImg depthData total i c = (Err e, c') /\
    results c' = results c /\ same_config c c'.
Proof.
  intros Hr Hl. unfold processLayer. run_js.
  rewrite Hr. cbn. rewrite Hl. cbn.
  eexists. split; [reflexivity|]. cbn. repeat split.
Qed.

(** The loop, when the layers [a .. k-1] can be made and layer [k] cannot:
    it stops at [k] with the exception, and the layers made so far have
    been appended to [this.results]. *)
Lemma processLayers_stops (n a k : nat) (c : BrowserDepthCutter) (e : JsError) :
  (a <= k < a + n)%nat ->
  (forall j, (a <= j < k)%nat ->
     exists r l, depthRanges c !! j = Some r /\
                 makeLayer originalImg depthData (borderWidth c) j r = Ok l) ->
  (exists r, depthRanges c !! k = Some r /\
             makeLayer originalImg depthData (borderWidth c) k r = Err e) ->
  exists c' ls,
    processLayers originalImg depthData total (seq a n) c = (Err e, c') /\
    results c' = results c ++ ls /\ length ls = (k - a)%nat /\
    (forall j r, (a <= j < k)%nat -> depthRanges c !! j = Some r ->
       exists l, makeLayer originalImg depthData (borderWidth c) j r = Ok l /\
                 ls !! (j - a)%nat = Some l) /\
    same_config c c'.
Proof.
  revert a c. induction n as [|n IH]; intros a c Hk Hbefore Hat; [lia|].
  simpl. unfold bind at 1.
  destruct (Nat.eq_dec a k) as [->|Ne].
  - destruct Hat as (r & Hr & Hl).
    destruct (processLayer_Err k c r e Hr Hl) as (c' & -> & Hres & Hcfg).
    exists c', []. rewrite app_nil_r, Nat.sub_diag.
    repeat split; try assumption; try apply Hcfg. intros j r' Hj. lia.
  - destruct (Hbefore a) as (r & l & Hr & Hl); [lia|].
    destruct (processLayer_Ok a c r l Hr Hl) as (c1 & -> & Hres & Hcfg).
    destruct Hcfg as (C1 & C2 & C3 & C4).
    destruct (IH (S a) c1) as (c' & ls & Hrun & Hres' & Hlen & Hls & Hcfg').
    + lia.
    + intros j Hj. rewrite C3, C4. apply Hbefore. lia.
    + rewrite C3, C4. exact Hat.
    + exists c', (l :: ls). split; [exact Hrun|]. split.
      { rewrite Hres', Hres, <- app_assoc. reflexivity. }
      split; [simpl; lia|]. split.
      * intros j r' Hj Hr'. destruct (Nat.eq_dec j a) as [->|Nj].
        -- exists l. rewrite Nat.sub_diag. split; [congruence|reflexivity].
        -- destruct (Hls j r') as (l' & Hl' & Hlk); [lia|now rewrite C4|].
           exists l'. rewrite C3 in Hl'. split; [exact Hl'|].
           replace (j - a)%nat with (S (j - S a)) by lia. exact Hlk.
      * destruct Hcfg' as (D1 & D2 & D3 & D4).
        repeat split; congruence.
Qed.

End Job.

Section Process.
Context {B : Browser}.

Variable imageFile : File.
Variable depthSource : DepthSource.
Variable c : BrowserDepthCutter.

(** [process] up to the loop, when both images load. *)
Lemma process_after_load (originalImg depthImg : ImageData) :
  loadImageFromFile imageFile = Ok originalImg ->
  loadDepthSource depthSource = Ok depthImg ->
  exists c1,
    results c1 = [] /\ same_config c c1 /\
    progressLog c1 =
      progressLog c ++ [(10, MsgLoad); (20, MsgResize); (30, MsgConvert)] /\
    process imageFile depthSource c =
    match processLayers originalImg (extractDepthField originalImg depthImg)
                        (length (depthRanges c))
                        (seq 0 (length (depthRanges c))) c1 with
    | (Ok _, c2) => (Ok (results c2), snd (onProgress 100 MsgDone c2))
    | (Err e, c2) => (Err (CutError e), c2)
    end.
Proof.
  intros Ho Hd. unfold loadDepthSource in Hd.
  unfold process. run_js.
  cbn. rewrite Ho, Hd. cbn.
  exists {| layerCount := layerCount c; depthOverlap := depthOverlap c;
            borderWidth := borderWidth c; depthRanges := depthRanges c;
            results := [];
            progressLog :=
              ((progressLog c ++ [(10, MsgLoad)]) ++ [(20, MsgResize)]) ++
              [(30, MsgConvert)] |}.
  split; [reflexivity|]. split; [repeat split|]. split.
  - cbn. rewrite <- !app_assoc. reflexivity.
  - unfold extractDepthField.
    destruct (processLayers _ _ _ _ _) as [[u|e] c2]; reflexivity.
Qed.

(** [process] when an image does not load: the exception is rethrown and
    [this.results] is what it was. *)
Lemma process_load_fails :
  (exists e, loadImageFromFile imageFile = Err e) \/
  (exists e, loadDepthSource depthSource = Err e) ->
  exists e c', process imageFile depthSource c = (Err (CutError e), c') /\
               results c' = results c.
Proof.
  unfold loadDepthSource.
  unfold process. run_js.
  cbn. intros [[e He]|[e He]].
  - rewrite He. cbn. eauto.
  - destruct (loadImageFromFile imageFile) as [o|e']; cbn.
    + rewrite He. cbn. eauto.
    + eauto.
Qed.

End Process.

(** C7 (as amended).  When both images load, the layers before layer [k]
    (counted from 0) can be made and layer [k] cannot, [process] throws one
    error and returns no result set, and [this.results] holds exactly the [k]
    layers made before the failure, in order: [getAllResults] returns them,
    and [getStats] is [null] only when the first layer failed. *)
Theorem failed_job_keeps_completed_layers {B : Browser}
    (imageFile : File) (depthSource : DepthSource) (c : BrowserDepthCutter)
    (originalImg depthImg : ImageData) (k : nat) (e : JsError) :
  loadImageFromFile imageFile = Ok originalImg ->
  loadDepthSource depthSource = Ok depthImg ->
  let depthData := extractDepthField originalImg depthImg in
  (forall j, (j < k)%nat ->
     exists r l, depthRanges c !! j = Some r /\
                 makeLayer originalImg depthData (borderWidth c) j r = Ok l) ->
  (exists r, depthRanges c !! k = Some r /\
             makeLayer originalImg depthData (borderWidth c) k r = Err e) ->
  exists c',
    process imageFile depthSource c = (Err (CutError e), c') /\
    length (getAllResults c') = k /\
    (forall j r, (j < k)%nat -> depthRanges c !! j = Some r ->
       exists l, makeLayer originalImg depthData (borderWidth c) j r = Ok l /\
                 getAllResults c' !! j = Some l) /\
    (k = 0%nat -> getStats c' = None) /\
    ((0 < k)%nat -> exists st, getStats c' = Some st /\ totalLayers st = k).
Proof.
  intros Ho Hd depthData Hbefore Hat.
  destruct (process_after_load imageFile depthSource c originalImg depthImg Ho Hd)
    as (c1 & Hres1 & (C1 & C2 & C3 & C4) & _ & Hrun).
  fold depthData in Hrun.
  assert (Hk : (k < length (depthRanges c))%nat).
  { destruct Hat as (r & Hr & _). now apply lookup_lt_Some in Hr. }
  destruct (processLayers_stops originalImg depthData (length (depthRanges c))
              (length (depthRanges c)) 0 k c1 e)
    as (c' & ls & Hloop & Hres & Hlen & Hls & _).
  { lia. }
  { intros j Hj. rewrite C3, C4. apply Hbefore. lia. }
  { rewrite C3, C4. exact Hat. }
  rewrite Hloop in Hrun. rewrite Hres1 in Hres. simpl in Hres.
  rewrite Nat.sub_0_r in Hlen.
  exists c'. unfold getAllResults, getStats. rewrite Hres, Hlen.
  split; [exact Hrun|]. split; [reflexivity|]. split; [|split].
  - intros j r Hj Hr. rewrite C3, C4 in Hls.
    destruct (Hls j r) as (l & Hl & Hlk); [lia|assumption|].
    rewrite Nat.sub_0_r in Hlk. exists l. split; assumption.
  - intros ->. reflexivity.
  - intros Hpos. destruct k as [|k']; [lia|]. simpl. eexists. split; reflexivity.
Qed.

Lemma failed_job_keeps_completed_layers_witness :
  let B := Fixtures.failingBrowser in
  let c := new_BrowserDepthCutter 2 0 0 in
  let depthData := extractDepthField Fixtures.red2x1 Fixtures.depthGray2x1 in
  exists c',
    @process B Fixtures.red2x1 (@DepthFile B Fixtures.depthGray2x1) c =
      (Err (CutError BlobError), c') /\
    length (getAllResults c') = 1%nat /\
    (forall j r, (j < 1)%nat -> depthRanges c !! j = Some r ->
       exists l, @makeLayer B Fixtures.red2x1 depthData (borderWidth c) j r = Ok l /\
                 getAllResults c' !! j = Some l) /\
    (1%nat = 0%nat -> getStats c' = None) /\
    ((0 < 1)%nat -> exists st, getStats c' = Some st /\ totalLayers st = 1%nat).
Proof.
  apply (@failed_job_keeps_completed_layers Fixtures.failingBrowser
           Fixtures.red2x1 (@DepthFile Fixtures.failingBrowser Fixtures.depthGray2x1)
           (new_BrowserDepthCutter 2 0 0)
           Fixtures.red2x1 Fixtures.depthGray2x1 1 BlobError).
  - reflexivity.
  - reflexivity.
  - intros j Hj. assert (j = 0%nat) as -> by lia.
    eexists. eexists. split; reflexivity.
  - eexists. split; reflexivity.
Defined.

(** C7 as stated fails: two layers, no overlap, no border; the encoder fails
    on the canvas of the second layer.  [process] throws, and [this.results]
    still holds the first layer. *)
Lemma failed_job_is_not_emptied :
  let B := Fixtures.failingBrowser in
  ~ (forall e c',
       @process B Fixtures.red2x1 (@DepthFile B Fixtures.depthGray2x1)
                (new_BrowserDepthCutter 2 0 0) = (Err e, c') ->
       getAllResults c' = [] /\ getStats c' = None).
Proof.
  intros B C.
  set (run := @process B Fixtures.red2x1 (@DepthFile B Fixtures.depthGray2x1)
                       (new_BrowserDepthCutter 2 0 0)) in *.
  assert (E : run = (Err (CutError BlobError), snd run)) by (vm_compute; reflexivity).
  destruct (C _ _ E) as [H _].
  apply (f_equal (@length Layer)) in H. vm_compute in H. discriminate H.
Qed.

Lemma generateDepthRanges_nonpositive (N : Z) (overlap : Q) :
  (N <= 0)%Z -> generateDepthRanges N overlap = [].
Proof.
  intros H. unfold generateDepthRanges.
  replace (Z.to_nat N) with 0%nat by lia. reflexivity.
Qed.

(** C8 (as amended).  A layer count [<= 0] is not rejected: the constructor
    yields an empty list of ranges, and [process], when both images load,
    goes through loading, resizing and the conversion of the depth data,
    makes no layer and completes with an empty result set. *)
Theorem nonpositive_layer_count_runs_empty {B : Browser}
    (imageFile : File) (depthSource : DepthSource)
    (N : Z) (overlap : Q) (border : Z) (originalImg depthImg : ImageData) :
  (N <= 0)%Z ->
  loadImageFromFile imageFile = Ok originalImg ->
  loadDepthSource depthSource = Ok depthImg ->
  depthRanges (new_BrowserDepthCutter N overlap border) = [] /\
  exists c',
    process imageFile depthSource (new_BrowserDepthCutter N overlap border) =
      (Ok [], c') /\
    getAllResults c' = [] /\
    progressLog c' =
      [(10, MsgLoad); (20, MsgResize); (30, MsgConvert); (100, MsgDone)].
Proof.
  intros HN Ho Hd.
  assert (Hr : depthRanges (new_BrowserDepthCutter N overlap border) = [])
    by (now apply generateDepthRanges_nonpositive).
  split; [exact Hr|].
  destruct (process_after_load imageFile depthSource
              (new_BrowserDepthCutter N overlap border) originalImg depthImg Ho Hd)
    as (c1 & Hres1 & _ & Hlog & Hrun).
  rewrite Hr in Hrun. simpl in Hrun. unfold ret in Hrun.
  rewrite Hres1 in Hrun.
  eexists. split; [exact Hrun|]. unfold getAllResults. cbn.
  split; [reflexivity|]. rewrite Hlog. reflexivity.
Qed.

Lemma nonpositive_layer_count_runs_empty_witness :
  let B := Fixtures.plainBrowser in
  depthRanges (new_BrowserDepthCutter 0 1 0) = [] /\
  exists c',
    @process B Fixtures.red2x1 (@DepthFile B Fixtures.depth2x1)
             (new_BrowserDepthCutter 0 1 0) = (Ok [], c') /\
    getAllResults c' = [] /\
    progressLog c' =
      [(10, MsgLoad); (20, MsgResize); (30, MsgConvert); (100, MsgDone)].
Proof.
  apply (@nonpositive_layer_count_runs_empty Fixtures.plainBrowser
           Fixtures.red2x1 (@DepthFile Fixtures.plainBrowser Fixtures.depth2x1)
           0 1 0 Fixtures.red2x1 Fixtures.depth2x1).
  - lia.
  - reflexivity.
  - reflexivity.
Defined.

(** C8 as stated fails: with a layer count of 0 nothing is thrown, and the
    depth data are converted (the progress call at 30 is made). *)
Lemma zero_layers_is_not_rejected :
  let B := Fixtures.plainBrowser in
  let run := @process B Fixtures.red2x1 (@DepthFile B Fixtures.depth2x1)
                      (new_BrowserDepthCutter 0 1 0) in
  ~ (exists e, fst run = Err e) /\
  fst run = Ok [] /\
  In (30, MsgConvert) (progressLog (snd run)).
Proof.
  cbv zeta. split; [|split].
  - intros [e He]. vm_compute in He. discriminate He.
  - vm_compute. reflexivity.
  - vm_compute. tauto.
Qed.

Lemma addBorder_not_declared : declares "addBorder" = false.
Proof. reflexivity. Qed.

Lemma makeLayer_border_throws {B : Browser} (originalImg : ImageData)
    (depthData : list (list Q)) (border : Z) (i : nat) (r : DepthRange) :
  (0 < border)%Z ->
  exists e, makeLayer originalImg depthData border i r = Err e.
Proof.
  intros Hb. unfold makeLayer.
  destruct (cutByDepthRange originalImg depthData (min r) (max r)) as [cv|e].
  - apply Z.ltb_lt in Hb. rewrite Hb. unfold addBorder. eauto.
  - eauto.
Qed.

(** C9, at the failing inputs: for every border width [> 0] and every layer
    count [>= 1], [process] throws and leaves no result; when the images load
    and the first canvas is cut, the exception is the TypeError of the call
    of [addBorder], which the image processor does not declare. *)
Theorem border_width_makes_process_throw {B : Browser}
    (imageFile : File) (depthSource : DepthSource)
    (N : Z) (overlap : Q) (border : Z) :
  (1 <= N)%Z -> (0 < border)%Z ->
  exists e c',
    process imageFile depthSource (new_BrowserDepthCutter N overlap border) =
      (Err (CutError e), c') /\
    getAllResults c' = [] /\
    (forall originalImg depthImg,
       loadImageFromFile imageFile = Ok originalImg ->
       loadDepthSource depthSource = Ok depthImg ->
       (height originalImg <=
        length (extractDepthField originalImg depthImg))%nat ->
       e = TypeError "this.imageProcessor.addBorder is not a function").
Proof.
  intros HN Hb. set (c := new_BrowserDepthCutter N overlap border).
  destruct (loadImageFromFile imageFile) as [originalImg|e0] eqn:Ho.
  2:{ destruct (process_load_fails imageFile depthSource c) as (e & c' & Hrun & Hres).
      { left. eauto. }
      exists e, c'. split; [exact Hrun|]. split; [exact Hres|].
      intros o d Ho'. discriminate Ho'. }
  destruct (loadDepthSource depthSource) as [depthImg|e0] eqn:Hd.
  2:{ destruct (process_load_fails imageFile depthSource c) as (e & c' & Hrun & Hres).
      { right. eauto. }
      exists e, c'. split; [exact Hrun|]. split; [exact Hres|].
      intros o d _ Hd'. discriminate Hd'. }
  destruct (process_after_load imageFile depthSource c originalImg depthImg Ho Hd)
    as (c1 & Hres1 & (C1 & C2 & C3 & C4) & _ & Hrun).
  assert (Hlen : length (depthRanges c) = Z.to_nat N)
    by apply generateDepthRanges_length.
  assert (Hr0 : depthRanges c !! 0%nat = Some (rangeAt N overlap 0)).
  { apply (generateDepthRanges_lookup N overlap 0). lia. }
  destruct (makeLayer_border_throws originalImg
              (extractDepthField originalImg depthImg) border 0
              (rangeAt N overlap 0) Hb) as (e & He).
  destruct (processLayers_stops originalImg (extractDepthField originalImg depthImg)
              (length (depthRanges c)) (length (depthRanges c)) 0 0 c1 e)
    as (c' & ls & Hloop & Hres & Hl & _ & _).
  { lia. }
  { intros j Hj. lia. }
  { rewrite C3, C4. exists (rangeAt N overlap 0). split; [exact Hr0|exact He]. }
  rewrite Hloop in Hrun. exists e, c'. split; [exact Hrun|]. split.
  - unfold getAllResults. rewrite Hres, Hres1.
    destruct ls; [reflexivity|discriminate Hl].
  - intros o d Ho' Hd' Hrows. injection Ho' as <-. injection Hd' as <-.
    unfold makeLayer in He.
    rewrite cutByDepthRange_Ok in He by exact Hrows.
    apply Z.ltb_lt in Hb. cbn in He. rewrite Hb in He. unfold addBorder in He.
    congruence.
Qed.

Lemma border_width_makes_process_throw_witness :
  let B := Fixtures.plainBrowser in
  exists e c',
    @process B Fixtures.red2x1 (@DepthFile B Fixtures.depth2x1)
             (new_BrowserDepthCutter 16 100 4) = (Err (CutError e), c') /\
    getAllResults c' = [] /\
    (forall originalImg depthImg,
       @loadImageFromFile B Fixtures.red2x1 = Ok originalImg ->
       @loadDepthSource B (@DepthFile B Fixtures.depth2x1) = Ok depthImg ->
       (height originalImg <=
        length (@extractDepthField B originalImg depthImg))%nat ->
       e = TypeError "this.imageProcessor.addBorder is not a function").
Proof.
  apply (@border_width_makes_process_throw Fixtures.plainBrowser
           Fixtures.red2x1 (@DepthFile Fixtures.plainBrowser Fixtures.depth2x1)
           16 100 4); lia.
Defined.

(** ** The scenarios of the specification, evaluated *)

Example ranges_4_layers_no_overlap :
  generateDepthRanges 4 0 =
  [mkRange (0 # 10) (250 # 10); mkRange (250 # 10) (500 # 10);
   mkRange (500 # 10) (750 # 10); mkRange (750 # 10) (1000 # 10)].
Proof. vm_compute. reflexivity. Qed.

Example ranges_4_layers_overlap_10 :
  map (fun r => (Qred (min r), Qred (max r))) (generateDepthRanges 4 10) =
  [(0, 35); (25, 60); (50, 85); (75, 100)].
Proof. vm_compute. reflexivity. Qed.

Example ranges_2_layers_overlap_quarter :
  map (fun r => (Qred (min r), Qred (max r))) (generateDepthRanges 2 (1 # 4)) =
  [(0, 503 # 10); (50, 100)].
Proof. vm_compute. reflexivity. Qed.

Example layerFilename_0 : layerFilename 0 = "0000.png"%string.
Proof. reflexivity. Qed.

Example layerFilename_12 : layerFilename 12 = "0012.png"%string.
Proof. reflexivity. Qed.

(** A whole job: four layers, no overlap, no border.  The job completes with
    four layers; the black pixel (depth 0) is opaque in the first layer only,
    and the white pixel (depth 100) is transparent in all four. *)
Example job_2x1_4_layers :
  let B := Fixtures.plainBrowser in
  exists ls c',
    @process B Fixtures.red2x1 (@DepthFile B Fixtures.depth2x1)
             (new_BrowserDepthCutter 4 0 0) = (Ok ls, c') /\
    map layer ls = [1; 2; 3; 4]%nat /\
    map filename ls = ["0000.png"; "0001.png"; "0002.png"; "0003.png"]%string /\
    map (fun l => data (canvas l) !! alphaIndex 2 0 0) ls =
      [Some 255; Some 0; Some 0; Some 0]%Z /\
    map (fun l => data (canvas l) !! alphaIndex 2 0 1) ls =
      [Some 0; Some 0; Some 0; Some 0]%Z /\
    map fst (progressLog c') = [10; 20; 30; 30 + 1 / 4 * 60; 30 + 2 / 4 * 60;
                                30 + 3 / 4 * 60; 30 + 4 / 4 * 60; 100].
Proof.
  cbv zeta. eexists. eexists. split; [vm_compute; reflexivity|].
  repeat split.
Qed.

(** The same job with the border width that the application sets: the call
    of [addBorder] throws at the first layer. *)
Example job_2x1_border_4 :
  let B := Fixtures.plainBrowser in
  exists c',
    @process B Fixtures.red2x1 (@DepthFile B Fixtures.depth2x1)
             (new_BrowserDepthCutter 16 100 4) =
      (Err (CutError (TypeError "this.imageProcessor.addBorder is not a function")),
       c') /\
    results c' = [] /\
    map fst (progressLog c') = [10; 20; 30; 30 + 1 / 16 * 60].
Proof.
  cbv zeta. eexists. split; [vm_compute; reflexivity|]. repeat split.
Qed.

(** * Further properties of the code *)

(** ** The partition: disjoint layers, and what the overlap does *)

Lemma Math_min_mono_r (a b b' : Q) : b <= b' -> Math_min a b <= Math_min a b'.
Proof.
  intros L.
  destruct (Math_min_spec a b) as [[H ->]|[H ->]];
    destruct (Math_min_spec a b') as [[H' ->]|[H' ->]]; lra.
Qed.

Lemma rangeAt_max_mono_overlap (N : Z) (overlap overlap' : Q) (i : Z) :
  overlap <= overlap' ->
  max (rangeAt N overlap i) <= max (rangeAt N overlap' i).
Proof.
  intros L. destruct (Z_lt_le_dec i (N - 1)) as [In|La].
  - rewrite !rangeAt_max_inner by assumption.
    apply round1_mono, Math_min_mono_r. lra.
  - rewrite !rangeAt_max_last by assumption. lra.
Qed.

Lemma no_overlap_ranges_disjoint (N : Z) (i j : nat) (r r' : DepthRange) (d : Q) :
  (1 <= N)%Z -> (i < j)%nat ->
  generateDepthRanges N 0 !! i = Some r ->
  generateDepthRanges N 0 !! j = Some r' ->
  accepts r d = true -> accepts r' d = true -> False.
Proof.
  intros HN Lt Hi Hj Ai Aj.
  apply generateDepthRanges_lookup_Some in Hi as [Li ->].
  apply generateDepthRanges_lookup_Some in Hj as [Lj ->].
  apply accepts_iff in Ai as [_ Ui]. apply accepts_iff in Aj as [Lo _].
  rewrite rangeAt_max_zero_overlap in Ui by lia.
  rewrite rangeAt_min in Lo.
  assert (M : (boundary N (Z.of_nat i + 1) <= boundary N (Z.of_nat j))%Z)
    by (apply boundary_mono; lia).
  apply inject_Z_div10_le in M. lra.
Qed.

(** Without overlap the layers are disjoint: a depth of [0, 100) is accepted
    by exactly one range. *)
Theorem no_overlap_exactly_one_layer (N : Z) (d : Q) :
  (1 <= N)%Z -> 0 <= d -> d < 100 ->
  exists i r,
    generateDepthRanges N 0 !! i = Some r /\ accepts r d = true /\
    forall j r', generateDepthRanges N 0 !! j = Some r' ->
                 accepts r' d = true -> j = i.
Proof.
  intros HN Lo Hi.
  destruct (ranges_cover_below_100 N HN 0 (Qle_refl 0) d Lo Hi)
    as (i & r & Hr & LU).
  assert (A : accepts r d = true) by now apply accepts_iff.
  exists i, r. split; [exact Hr|]. split; [exact A|].
  intros j r' Hr' A'.
  destruct (Nat.lt_trichotomy i j) as [Lt|[Eq|Gt]]; [|now symmetry|].
  - exfalso. exact (no_overlap_ranges_disjoint N i j r r' d HN Lt Hr Hr' A A').
  - exfalso. exact (no_overlap_ranges_disjoint N j i r' r d HN Gt Hr' Hr A' A).
Qed.

Lemma no_overlap_exactly_one_layer_witness :
  (1 <= 4)%Z /\ 0 <= 60 /\ 60 < 100 /\
  exists i r,
    generateDepthRanges 4 0 !! i = Some r /\ accepts r 60 = true /\
    forall j r', generateDepthRanges 4 0 !! j = Some r' ->
                 accepts r' 60 = true -> j = i.
Proof.
  split; [lia|]. split; [lra|]. split; [lra|].
  apply (no_overlap_exactly_one_layer 4 60); [lia|lra|lra].
Defined.

(** A larger overlap only adds pixels to a layer: what range [i] accepts
    with an overlap, it accepts with every larger overlap. *)
Theorem larger_overlap_accepts_more (N : Z) (overlap overlap' : Q)
    (i : nat) (r r' : DepthRange) (d : Q) :
  overlap <= overlap' ->
  generateDepthRanges N overlap !! i = Some r ->
  generateDepthRanges N overlap' !! i = Some r' ->
  accepts r d = true -> accepts r' d = true.
Proof.
  intros L Hr Hr' A.
  apply generateDepthRanges_lookup_Some in Hr as [_ ->].
  apply generateDepthRanges_lookup_Some in Hr' as [_ ->].
  apply accepts_iff in A as [Lo Hi]. apply accepts_iff.
  rewrite rangeAt_min in *. split; [exact Lo|].
  apply Qlt_le_trans with (max (rangeAt N overlap (Z.of_nat i))); [exact Hi|].
  now apply rangeAt_max_mono_overlap.
Qed.

Lemma larger_overlap_accepts_more_witness :
  accepts (mkRange (250 # 10) (600 # 10)) 52 = true.
Proof.
  apply (larger_overlap_accepts_more 4 5 10 1
           (mkRange (250 # 10) (550 # 10)) (mkRange (250 # 10) (600 # 10)) 52).
  - lra.
  - reflexivity.
  - reflexivity.
  - reflexivity.
Defined.

Lemma rangeAt_max_overlap_100 (N : Z) (overlap : Q) (i : Z) :
  (1 <= N)%Z -> 100 <= overlap -> (0 <= i < N)%Z ->
  max (rangeAt N overlap i) == 100.
Proof.
  intros HN Hov Hi. destruct (Z_lt_le_dec i (N - 1)) as [In|La].
  - rewrite rangeAt_max_inner by assumption.
    assert (Hb : (0 <= i + 1 <= N)%Z) by lia.
    destruct (boundary_bounds N HN (i + 1) Hb) as [L _].
    rewrite Zle_Qle in L. change (inject_Z 0) with 0 in L.
    assert (E : Math_min 100 (inject_Z (boundary N (i + 1)) / 10 + overlap) == 100).
    { destruct (Math_min_spec 100 (inject_Z (boundary N (i + 1)) / 10 + overlap))
        as [[H ->]|[H ->]]; rewrite div10 in *; lra. }
    rewrite (round1_comp _ _ E). apply round1_100.
  - replace i with (N - 1)%Z by lia. now apply rangeAt_max_final.
Qed.

(** With an overlap of 100 or more (the application sets 100) every range
    ends at 100, so the layers are nested: what a later range accepts, every
    earlier range accepts too. *)
Theorem full_overlap_nests_layers (N : Z) (overlap : Q) :
  (1 <= N)%Z -> 100 <= overlap ->
  (forall i r, generateDepthRanges N overlap !! i = Some r -> max r == 100) /\
  (forall i j r r' d,
     (i <= j)%nat ->
     generateDepthRanges N overlap !! i = Some r ->
     generateDepthRanges N overlap !! j = Some r' ->
     accepts r' d = true -> accepts r d = true).
Proof.
  intros HN Hov. split.
  - intros i r Hr. apply generateDepthRanges_lookup_Some in Hr as [L ->].
    apply rangeAt_max_overlap_100; [assumption|assumption|lia].
  - intros i j r r' d Le Hr Hr' A.
    apply generateDepthRanges_lookup_Some in Hr as [Li ->].
    apply generateDepthRanges_lookup_Some in Hr' as [Lj ->].
    apply accepts_iff in A as [Lo Hi]. apply accepts_iff.
    rewrite rangeAt_max_overlap_100 in * by (assumption || lia).
    split; [|exact Hi]. rewrite rangeAt_min in *.
    apply Qle_trans with (inject_Z (boundary N (Z.of_nat j)) / 10); [|exact Lo].
    apply inject_Z_div10_le, boundary_mono; lia.
Qed.

Lemma full_overlap_nests_layers_witness :
  (1 <= 16)%Z /\ 100 <= 100 /\
  (forall i r, generateDepthRanges 16 100 !! i = Some r -> max r == 100) /\
  (forall i j r r' d,
     (i <= j)%nat ->
     generateDepthRanges 16 100 !! i = Some r ->
     generateDepthRanges 16 100 !! j = Some r' ->
     accepts r' d = true -> accepts r d = true).
Proof.
  split; [lia|]. split; [lra|].
  apply (full_overlap_nests_layers 16 100); [lia|lra].
Defined.

(** ** The mask: repeated cuts, missing rows, empty ranges, the threshold *)

Lemma forEachM_ext {S : Type} (body body' : nat -> S -> result S) (l : list nat)
    (s : S) :
  (forall i s', In i l -> body i s' = body' i s') ->
  forEachM body l s = forEachM body' l s.
Proof.
  revert s. induction l as [|i l IH]; intros s H; simpl; [reflexivity|].
  rewrite (H i s) by now left.
  destruct (body' i s) as [s'|e]; [|reflexivity].
  apply IH. intros j s'' Hj. apply H. now right.
Qed.

Lemma forEachM_app {S : Type} (body : nat -> S -> result S) (l1 l2 : list nat)
    (s : S) :
  forEachM body (l1 ++ l2) s =
  match forEachM body l1 s with
  | Ok s' => forEachM body l2 s'
  | Err e => Err e
  end.
Proof.
  revert s. induction l1 as [|i l1 IH]; intros s; simpl; [reflexivity|].
  destruct (body i s) as [s'|e]; [apply IH|reflexivity].
Qed.

Lemma lookup_insert_same_fmap (d : list Z) (j : nat) :
  <[j := 0%Z]> d !! j = (fun _ => 0%Z) <$> d !! j.
Proof.
  destruct (Nat.lt_ge_cases j (length d)) as [Lt|Ge].
  - rewrite list_lookup_insert_eq by assumption.
    destruct (lookup_lt_is_Some_2 _ _ Lt) as [v ->]. reflexivity.
  - rewrite list_insert_ge by assumption.
    rewrite (lookup_ge_None_2 _ _ Ge). reflexivity.
Qed.

(** The buffer after the loops, entry by entry: an entry is set to 0 when a
    cleared pixel addresses it, and is left alone otherwise. *)
Lemma clear_lookup (depthData : list (list Q)) (minDepth maxDepth : Q) (w : nat)
    (ps : list (nat * nat)) (d : list Z) (j : nat) :
  fold_left (clearStep depthData minDepth maxDepth w) ps d !! j =
  if existsb (fun p => cleared depthData minDepth maxDepth p
                       && (alphaIndex w (fst p) (snd p) =? j)%nat) ps
  then (fun _ => 0%Z) <$> d !! j
  else d !! j.
Proof.
  revert d. induction ps as [|p ps IH]; intros d; simpl; [reflexivity|].
  rewrite IH. unfold clearStep at 1 2.
  destruct (cleared depthData minDepth maxDepth p); simpl.
  - destruct (Nat.eqb_spec (alphaIndex w (fst p) (snd p)) j) as [->|Ne]; simpl.
    + rewrite lookup_insert_same_fmap.
      destruct (existsb _ ps); destruct (d !! j); reflexivity.
    + rewrite list_lookup_insert_ne by assumption. reflexivity.
  - reflexivity.
Qed.





Lemma cutRow_missing (depthData : list (list Q)) (minDepth maxDepth : Q)
    (w y : nat) (d : list Z) :
  depthData !! y = None -> (0 < w)%nat ->
  forEachM (cutPixel depthData minDepth maxDepth w y) (seq 0 w) d =
  Err (TypeError "Cannot read properties of undefined").
Proof.
  intros Hy Hw. destruct w as [|w]; [lia|].
  simpl. unfold cutPixel. rewrite Hy. reflexivity.
Qed.

(** On an image that has pixels, [cutByDepthRange] throws exactly when the
    image has more rows than the depth field; the exception is then the
    TypeError of reading [depthData[y][x]] in the first row that is missing. *)
Theorem cut_throws_iff_row_missing (originalImg : ImageData)
    (depthData : list (list Q)) (minDepth maxDepth : Q) :
  (0 < width originalImg)%nat -> (0 < height originalImg)%nat ->
  ((length depthData < height originalImg)%nat ->
   cutByDepthRange originalImg depthData minDepth maxDepth =
   Err (TypeError "Cannot read properties of undefined")) /\
  ((height originalImg <= length depthData)%nat ->
   exists out, cutByDepthRange originalImg depthData minDepth maxDepth = Ok out).
Proof.
  intros Hw Hh. split.
  - intros Hl. unfold cutByDepthRange. cbv zeta.
    replace (height originalImg)
      with (length depthData + (height originalImg - length depthData))%nat by lia.
    rewrite seq_app, forEachM_app.
    rewrite cutRows_Ok.
    2:{ intros y Hy. apply in_seq in Hy. apply lookup_lt_is_Some_2. lia. }
    destruct (height originalImg - length depthData)%nat as [|m] eqn:E; [lia|].
    simpl. rewrite cutRow_missing; [reflexivity| |exact Hw].
    apply lookup_ge_None_2. lia.
  - intros H. eexists. now apply cutByDepthRange_Ok.
Qed.

Lemma cut_throws_iff_row_missing_witness :
  ((length (@nil (list Q)) < height Fixtures.red2x1)%nat ->
   cutByDepthRange Fixtures.red2x1 [] 0 50 =
   Err (TypeError "Cannot read properties of undefined")) /\
  ((height Fixtures.red2x1 <= length (@nil (list Q)))%nat ->
   exists out, cutByDepthRange Fixtures.red2x1 [] 0 50 = Ok out).
Proof.
  apply (cut_throws_iff_row_missing Fixtures.red2x1 [] 0 50).
  - vm_compute. lia.
  - vm_compute. lia.
Defined.

Lemma outOfRange_empty_range (d minDepth maxDepth : Q) :
  maxDepth <= minDepth -> outOfRange (Some d) minDepth maxDepth = true.
Proof.
  intros H. unfold outOfRange.
  destruct (Qle_bool minDepth d) eqn:E; simpl; [|reflexivity].
  apply Qle_bool_iff in E. apply Qle_bool_iff. lra.
Qed.

(** A range whose upper end is not above its lower end (as the partition
    yields for very small steps) gives a transparent layer: every pixel that
    has a depth gets alpha 0. *)
Theorem empty_range_clears_every_pixel (originalImg : ImageData)
    (depthData : list (list Q)) (minDepth maxDepth : Q) (y x : nat) (d : Q) :
  wf_image originalImg ->
  (height originalImg <= length depthData)%nat ->
  maxDepth <= minDepth ->
  (y < height originalImg)%nat -> (x < width originalImg)%nat ->
  depthAt depthData y x = Some d ->
  exists out,
    cutByDepthRange originalImg depthData minDepth maxDepth = Ok out /\
    data out !! alphaIndex (width originalImg) y x = Some 0%Z.
Proof.
  intros Wf Hrows He Hy Hx Hd.
  eexists. split; [now apply cutByDepthRange_Ok|]. cbn [data].
  destruct (channel_in_range originalImg y x 3 Wf Hy Hx) as (a & Ha & _); [lia|].
  apply (clear_sets_zero _ _ _ _ _ _ (y, x)).
  - apply in_pixels_iff. simpl. lia.
  - unfold cleared. simpl. rewrite Hd. now apply outOfRange_empty_range.
  - now apply lookup_lt_Some in Ha.
Qed.

Lemma empty_range_clears_every_pixel_witness :
  exists out,
    cutByDepthRange Fixtures.red2x1
      (convertDepthImageToData Fixtures.depth2x1) 0 0 = Ok out /\
    data out !! alphaIndex (width Fixtures.red2x1) 0 0 = Some 0%Z.
Proof.
  apply (empty_range_clears_every_pixel Fixtures.red2x1
           (convertDepthImageToData Fixtures.depth2x1) 0 0 0 0 (depthOfGray 0)).
  - apply wf_imageb_spec. reflexivity.
  - vm_compute. lia.
  - lra.
  - vm_compute. lia.
  - vm_compute. lia.
  - reflexivity.
Defined.

Lemma thresholdPixel_is_cutPixel (depthData : list (list Q)) (threshold upper : Q)
    (w y x : nat) (d : list Z) :
  (forall y' x' q, depthAt depthData y' x' = Some q -> q < upper) ->
  thresholdPixel depthData threshold w y x d =
  cutPixel depthData threshold upper w y x d.
Proof.
  intros H. unfold thresholdPixel, cutPixel.
  destruct (depthData !! y) as [row|] eqn:Hy; [|reflexivity].
  destruct (row !! x) as [q|] eqn:Hx; [|reflexivity].
  assert (Hq : q < upper).
  { apply (H y x). unfold depthAt. now rewrite Hy. }
  unfold belowThreshold, outOfRange.
  destruct (Qle_bool upper q) eqn:E.
  - apply Qle_bool_iff in E. lra.
  - now rewrite orb_false_r.
Qed.

(** [cutByDepthThreshold] is [cutByDepthRange] without an upper end: for an
    upper bound above every depth of the field, the two return the same. *)
Theorem threshold_is_range_without_upper_end (originalImg : ImageData)
    (depthData : list (list Q)) (threshold upper : Q) :
  (forall y x q, depthAt depthData y x = Some q -> q < upper) ->
  cutByDepthThreshold originalImg depthData threshold =
  cutByDepthRange originalImg depthData threshold upper.
Proof.
  intros H. unfold cutByDepthThreshold, cutByDepthRange. cbv zeta.
  rewrite (forEachM_ext
             (fun y d => forEachM (thresholdPixel depthData threshold
                                     (width originalImg) y)
                                  (seq 0 (width originalImg)) d)
             (fun y d => forEachM (cutPixel depthData threshold upper
                                     (width originalImg) y)
                                  (seq 0 (width originalImg)) d)).
  - reflexivity.
  - intros y d _. apply forEachM_ext. intros x d' _.
    now apply thresholdPixel_is_cutPixel.
Qed.

Lemma threshold_is_range_without_upper_end_witness :
  cutByDepthThreshold Fixtures.red2x1
    (convertDepthImageToData Fixtures.depth2x1) 50 =
  cutByDepthRange Fixtures.red2x1
    (convertDepthImageToData Fixtures.depth2x1) 50 101.
Proof.
  apply (threshold_is_range_without_upper_end Fixtures.red2x1
           (convertDepthImageToData Fixtures.depth2x1) 50 101).
  intros y x q. unfold depthAt.
  destruct y as [|y]; [|discriminate].
  destruct x as [|[|x]]; cbn; intros E; inversion E; reflexivity.
Defined.

(** ** The job: what a run does to the cutter *)

Section JobRuns.
Context {B : Browser}.

Variable originalImg : ImageData.
Variable depthData : list (list Q).
Variable total : nat.

Lemma makeLayer_fields (border : Z) (i : nat) (r : DepthRange) (l : Layer) :
  makeLayer originalImg depthData border i r = Ok l ->
  layer l = (i + 1)%nat /\ filename l = layerFilename i /\ depthRange l = r /\
  layerSize l = size (blob l) /\
  (border <= 0)%Z /\
  cutByDepthRange originalImg depthData (min r) (max r) = Ok (canvas l) /\
  toBlob (canvas l) = Some (blob l).
Proof.
  unfold makeLayer, canvasToBlob.
  destruct (cutByDepthRange originalImg depthData (min r) (max r)) as [cv|e];
    [|discriminate].
  destruct (Z.ltb_spec 0 border) as [Hb|Hb]; [unfold addBorder; discriminate|].
  destruct (toBlob cv) as [b|] eqn:Hblob; [|discriminate].
  intros E. injection E as <-. cbn. repeat split; try assumption; reflexivity.
Qed.

(** One iteration, whatever its outcome. *)
Lemma processLayer_step (i : nat) (c c' : BrowserDepthCutter) (o : result unit) :
  processLayer originalImg depthData total i c = (o, c') ->
  same_config c c' /\
  ((o = Ok tt /\
    exists r l, depthRanges c !! i = Some r /\
                makeLayer originalImg depthData (borderWidth c) i r = Ok l /\
                results c' = results c ++ [l]) \/
   ((exists e, o = Err e) /\ results c' = results c)).
Proof.
  unfold processLayer. run_js.
  destruct (depthRanges c !! i) as [r|] eqn:Hr; cbn.
  - destruct (makeLayer originalImg depthData (borderWidth c) i r) as [l|e] eqn:Hl;
      cbn; intros E; injection E as <- <-; cbn.
    + split; [repeat split|]. left. split; [reflexivity|]. eauto.
    + split; [repeat split|]. right. eauto.
  - intros E; injection E as <- <-. split; [repeat split|]. right. eauto.
Qed.

(** The loop, whatever its outcome: it appends layers that are numbered and
    named after their index, one per iteration that completed. *)
Lemma processLayers_appends (n a : nat) (c c' : BrowserDepthCutter)
    (o : result unit) :
  processLayers originalImg depthData total (seq a n) c = (o, c') ->
  same_config c c' /\
  exists ls,
    results c' = results c ++ ls /\ (length ls <= n)%nat /\
    (o = Ok tt -> length ls = n) /\
    forall k l, ls !! k = Some l ->
      depthRanges c !! (a + k)%nat = Some (depthRange l) /\
      makeLayer originalImg depthData (borderWidth c) (a + k) (depthRange l) = Ok l.
Proof.
  revert a c. induction n as [|n IH]; intros a c; simpl.
  - unfold ret. intros E; injection E as <- <-.
    split; [repeat split|]. exists []. rewrite app_nil_r.
    split; [reflexivity|]. split; [simpl; lia|]. split; [reflexivity|].
    intros k l Hk. discriminate Hk.
  - unfold bind at 1.
    destruct (processLayer originalImg depthData total a c) as [o1 c1] eqn:Hstep.
    apply processLayer_step in Hstep as [(C1 & C2 & C3 & C4) Hcases].
    destruct Hcases as [(-> & r & l & Hr & Hl & Hres)|((e & ->) & Hres)].
    + intros Hrun. apply IH in Hrun as [(D1 & D2 & D3 & D4) (ls & Hres' & Hlen & Hok & Hls)].
      split; [repeat split; congruence|].
      exists (l :: ls). split; [rewrite Hres', Hres, <- app_assoc; reflexivity|].
      split; [simpl; lia|]. split; [intros Ho; simpl; rewrite Hok; auto|].
      intros [|k] l' Hk; simpl in Hk.
      * injection Hk as <-. rewrite Nat.add_0_r.
        destruct (makeLayer_fields _ _ _ _ Hl) as (_ & _ & -> & _). auto.
      * replace (a + S k)%nat with (S a + k)%nat by lia.
        rewrite <- C3, <- C4. now apply Hls.
    + intros E; injection E as <- <-.
      split; [repeat split; assumption|].
      exists []. rewrite app_nil_r.
      split; [exact Hres|]. split; [simpl; lia|]. split; [discriminate|].
      intros k l Hk. discriminate Hk.
Qed.

(** The loop when every layer can be made. *)
Lemma processLayers_completes (n a : nat) (c : BrowserDepthCutter) :
  (forall j, (a <= j < a + n)%nat ->
     exists r l, depthRanges c !! j = Some r /\
                 makeLayer originalImg depthData (borderWidth c) j r = Ok l) ->
  exists c',
    processLayers originalImg depthData total (seq a n) c = (Ok tt, c') /\
    map fst (progressLog c') =
      map fst (progressLog c) ++
      map (fun i => 30 + (inject_Z (Z.of_nat i + 1) / inject_Z (Z.of_nat total)) * 60)
          (seq a n).
Proof.
  revert a c. induction n as [|n IH]; intros a c Hall; simpl.
  - exists c. unfold ret. now rewrite app_nil_r.
  - destruct (Hall a) as (r & l & Hr & Hl); [lia|].
    unfold bind at 1. unfold processLayer. run_js. rewrite Hr. cbn. rewrite Hl. cbn.
    match goal with
    | |- context [processLayers _ _ _ _ ?c1] => destruct (IH (S a) c1) as (c' & Hrun & Hlog)
    end.
    { intros j Hj. cbn. apply Hall. lia. }
    exists c'. split; [exact Hrun|].
    rewrite Hlog. cbn. rewrite map_app, <- app_assoc. reflexivity.
Qed.

End JobRuns.

Section ProcessRuns.
Context {B : Browser}.

Variable imageFile : File.
Variable depthSource : DepthSource.
Variable c : BrowserDepthCutter.

(** [process] when an image does not load: it stops after the first call of
    the progress callback. *)
Lemma process_stops_at_load (e : JsError) :
  loadImageFromFile imageFile = Err e \/
  ((exists originalImg, loadImageFromFile imageFile = Ok originalImg) /\
   loadDepthSource depthSource = Err e) ->
  process imageFile depthSource c =
  (Err (CutError e), snd (onProgress 10 MsgLoad c)).
Proof.
  unfold loadDepthSource. unfold process. run_js. cbn.
  intros [He|[[o Ho] He]].
  - rewrite He. reflexivity.
  - rewrite Ho. cbn. rewrite He. reflexivity.
Qed.

Lemma extractDepthField_length (originalImg depthImg : ImageData) :
  length (extractDepthField originalImg depthImg) = height originalImg.
Proof.
  unfold extractDepthField. rewrite convert_length.
  unfold autoAdjustDepthImage, resizeImage, checkSizeMatch.
  destruct (Nat.eqb_spec (width originalImg) (width depthImg));
    destruct (Nat.eqb_spec (height originalImg) (height depthImg)); simpl; congruence.
Qed.

Lemma extractDepthField_depthAt (originalImg depthImg : ImageData) (y x : nat) :
  (y < height originalImg)%nat -> (x < width originalImg)%nat ->
  exists d, depthAt (extractDepthField originalImg depthImg) y x = Some d.
Proof.
  intros Hy Hx. unfold extractDepthField. eexists. apply convert_depthAt.
  - unfold autoAdjustDepthImage, resizeImage, checkSizeMatch.
    destruct (Nat.eqb_spec (width originalImg) (width depthImg));
      destruct (Nat.eqb_spec (height originalImg) (height depthImg)); simpl; lia.
  - unfold autoAdjustDepthImage, resizeImage, checkSizeMatch.
    destruct (Nat.eqb_spec (width originalImg) (width depthImg));
      destruct (Nat.eqb_spec (height originalImg) (height depthImg)); simpl; lia.
Qed.

End ProcessRuns.

(** A run in which an image does not load leaves the results of the run
    before: [getAllResults] and [getStats] answer as before the call, and the
    progress callback was called once, with 10. *)
Theorem failed_load_keeps_previous_results {B : Browser}
    (imageFile : File) (depthSource : DepthSource) (c : BrowserDepthCutter)
    (e : JsError) :
  loadImageFromFile imageFile = Err e \/
  ((exists originalImg, loadImageFromFile imageFile = Ok originalImg) /\
   loadDepthSource depthSource = Err e) ->
  exists c',
    process imageFile depthSource c = (Err (CutError e), c') /\
    getAllResults c' = getAllResults c /\
    getStats c' = getStats c /\
    progressLog c' = progressLog c ++ [(10, MsgLoad)].
Proof.
  intros H. eexists. split; [now apply process_stops_at_load|].
  repeat split.
Qed.

Lemma failed_load_keeps_previous_results_witness :
  let B := Fixtures.plainBrowser in
  let c := new_BrowserDepthCutter 4 0 0 in
  exists c',
    @process B Fixtures.red2x1 (@DataUrl B "data:image/png;base64,") c =
      (Err (CutError ImageLoadError), c') /\
    getAllResults c' = getAllResults c /\
    getStats c' = getStats c /\
    progressLog c' = progressLog c ++ [(10, MsgLoad)].
Proof.
  apply (@failed_load_keeps_previous_results Fixtures.plainBrowser
           Fixtures.red2x1 (@DataUrl Fixtures.plainBrowser "data:image/png;base64,")
           (new_BrowserDepthCutter 4 0 0) ImageLoadError).
  right. split; [exists Fixtures.red2x1; reflexivity|reflexivity].
Defined.

(** What [process] keeps, whatever its outcome: the configuration and the
    ranges are unchanged, and every entry [k] of [this.results] is layer
    [k + 1], named after [k], cut for range [k], with the size of its blob;
    so there are never more results than ranges. *)
Theorem process_keeps_results_numbered {B : Browser}
    (imageFile : File) (depthSource : DepthSource) (c c' : BrowserDepthCutter)
    (o : result (list Layer)) :
  results_numbered c ->
  process imageFile depthSource c = (o, c') ->
  results_numbered c' /\ same_config c c' /\
  (length (results c') <= length (depthRanges c'))%nat.
Proof.
  intros Inv Hrun.
  assert (K : results_numbered c' /\ same_config c c').
  { destruct (loadImageFromFile imageFile) as [originalImg|e] eqn:Ho.
    2:{ rewrite (process_stops_at_load imageFile depthSource c e) in Hrun
          by (now left).
        injection Hrun as <- <-. split; [exact Inv|repeat split]. }
    destruct (loadDepthSource depthSource) as [depthImg|e] eqn:Hd.
    2:{ rewrite (process_stops_at_load imageFile depthSource c e) in Hrun
          by (right; eauto).
        injection Hrun as <- <-. split; [exact Inv|repeat split]. }
    destruct (process_after_load imageFile depthSource c originalImg depthImg Ho Hd)
      as (c1 & Hres1 & (C1 & C2 & C3 & C4) & _ & Heq).
    rewrite Heq in Hrun. clear Heq.
    destruct (processLayers _ _ _ _ c1) as [o2 c2] eqn:Hloop.
    apply processLayers_appends in Hloop
      as [(D1 & D2 & D3 & D4) (ls & Hres & _ & _ & Hls)].
    rewrite Hres1 in Hres. simpl in Hres.
    assert (Inv2 : results_numbered c2).
    { intros k l Hk. rewrite Hres in Hk. destruct (Hls k l Hk) as [Hr Hl].
      simpl in Hr, Hl.
      destruct (makeLayer_fields _ _ _ _ _ _ Hl) as (F1 & F2 & _ & F4 & _).
      rewrite D4. auto. }
    destruct o2 as [u|e]; injection Hrun as <- <-.
    - split; [exact Inv2|]. unfold same_config, onProgress. cbn.
      repeat split; congruence.
    - split; [exact Inv2|]. unfold same_config. repeat split; congruence. }
  destruct K as [Inv' Cfg]. split; [exact Inv'|]. split; [exact Cfg|].
  destruct (results c') as [|l0 rest] eqn:E using rev_ind; [simpl; lia|].
  clear IHrest.
  assert (Hlast : (rest ++ [l0]) !! length rest = Some l0).
  { rewrite lookup_app_r by lia. now rewrite Nat.sub_diag. }
  rewrite <- E in Hlast. destruct (Inv' _ _ Hlast) as (_ & _ & Hr & _).
  apply lookup_lt_Some in Hr. rewrite length_app. simpl. lia.
Qed.

Lemma process_keeps_results_numbered_witness :
  let B := Fixtures.failingBrowser in
  let c := new_BrowserDepthCutter 2 0 0 in
  let run := @process B Fixtures.red2x1 (@DepthFile B Fixtures.depthGray2x1) c in
  results_numbered (snd run) /\ same_config c (snd run) /\
  (length (results (snd run)) <= length (depthRanges (snd run)))%nat.
Proof.
  intros B c run.
  apply (@process_keeps_results_numbered Fixtures.failingBrowser
           Fixtures.red2x1 (@DepthFile Fixtures.failingBrowser Fixtures.depthGray2x1)
           (new_BrowserDepthCutter 2 0 0) (snd run) (fst run)).
  - intros k l Hk. discriminate Hk.
  - reflexivity.
Defined.

Lemma clear_alpha (originalImg : ImageData) (depthData : list (list Q))
    (minDepth maxDepth : Q) (y x : nat) :
  wf_image originalImg ->
  (y < height originalImg)%nat -> (x < width originalImg)%nat ->
  exists a,
    data originalImg !! alphaIndex (width originalImg) y x = Some a /\
    fold_left (clearStep depthData minDepth maxDepth (width originalImg))
              (pixels (width originalImg) (height originalImg))
              (data originalImg) !! alphaIndex (width originalImg) y x =
    Some (if outOfRange (depthAt depthData y x) minDepth maxDepth then 0%Z else a).
Proof.
  intros Wf Hy Hx.
  destruct (channel_in_range originalImg y x 3 Wf Hy Hx) as (a & Ha & _); [lia|].
  exists a. split; [exact Ha|].
  rewrite clear_lookup. fold (alphaIndex (width originalImg) y x) in Ha.
  rewrite Ha. simpl.
  destruct (outOfRange (depthAt depthData y x) minDepth maxDepth) eqn:E.
  - replace (existsb _ _) with true; [reflexivity|]. symmetry.
    apply existsb_exists. exists (y, x). split.
    + apply in_pixels_iff. simpl. lia.
    + unfold cleared. simpl. rewrite E, Nat.eqb_refl. reflexivity.
  - replace (existsb _ _) with false; [reflexivity|]. symmetry.
    apply not_true_is_false. intros Hex.
    apply existsb_exists in Hex as ([y' x'] & Hp & Hb).
    apply in_pixels_iff in Hp. simpl in Hp, Hb.
    apply andb_true_iff in Hb as [Hc Heq]. apply Nat.eqb_eq in Heq.
    apply alphaIndex_inj in Heq as [-> ->]; [|lia|lia].
    unfold cleared in Hc. simpl in Hc. congruence.
Qed.

Lemma makeLayer_borderless {B : Browser} (originalImg : ImageData)
    (depthData : list (list Q)) (border : Z) (i : nat) (r : DepthRange) :
  (border <= 0)%Z ->
  (height originalImg <= length depthData)%nat ->
  (forall cv, is_Some (toBlob cv)) ->
  exists l, makeLayer originalImg depthData border i r = Ok l.
Proof.
  intros Hb Hrows Hblob. unfold makeLayer, canvasToBlob.
  rewrite cutByDepthRange_Ok by exact Hrows.
  destruct (Z.ltb_spec 0 border) as [Lt|_]; [lia|].
  match goal with |- context [toBlob ?cv] => destruct (Hblob cv) as [b ->] end.
  eauto.
Qed.

Section CompleteJob.
Context {B : Browser}.

Variable imageFile : File.
Variable depthSource : DepthSource.
Variable c : BrowserDepthCutter.
Variables originalImg depthImg : ImageData.

Hypothesis image_loads : loadImageFromFile imageFile = Ok originalImg.
Hypothesis depth_loads : loadDepthSource depthSource = Ok depthImg.
Hypothesis layers_can_be_made :
  forall j r, depthRanges c !! j = Some r ->
    exists l, makeLayer originalImg (extractDepthField originalImg depthImg)
                        (borderWidth c) j r = Ok l.

(** A job in which both images load and every layer can be made. *)
Lemma process_completes :
  exists ls c',
    process imageFile depthSource c = (Ok ls, c') /\
    results c' = ls /\ length ls = length (depthRanges c) /\
    (forall j r, depthRanges c !! j = Some r ->
       exists l, ls !! j = Some l /\
                 makeLayer originalImg (extractDepthField originalImg depthImg)
                           (borderWidth c) j r = Ok l) /\
    map fst (progressLog c') =
      map fst (progressLog c) ++ [10; 20; 30] ++
      map (fun i => 30 + (inject_Z (Z.of_nat i + 1)
                          / inject_Z (Z.of_nat (length (depthRanges c)))) * 60)
          (seq 0 (length (depthRanges c))) ++ [100].
Proof.
  destruct (process_after_load imageFile depthSource c originalImg depthImg
              image_loads depth_loads)
    as (c1 & Hres1 & (C1 & C2 & C3 & C4) & Hlog1 & Heq).
  destruct (processLayers_completes originalImg
              (extractDepthField originalImg depthImg)
              (length (depthRanges c)) (length (depthRanges c)) 0 c1)
    as (c2 & Hloop & Hlog2).
  { intros j Hj. rewrite C3, C4.
    destruct (lookup_lt_is_Some_2 (depthRanges c) j) as [r Hr]; [lia|].
    destruct (layers_can_be_made j r Hr) as [l Hl]. eauto. }
  rewrite Hloop in Heq.
  destruct (processLayers_appends _ _ _ _ _ _ _ _ Hloop)
    as [_ (ls & Hres & _ & Hok & Hls)].
  rewrite Hres1 in Hres. simpl in Hres. specialize (Hok eq_refl).
  exists (results c2), (snd (onProgress 100 MsgDone c2)).
  split; [exact Heq|]. split; [reflexivity|]. rewrite Hres.
  split; [exact Hok|]. split.
  - intros j r Hr.
    destruct (lookup_lt_is_Some_2 ls j) as [l Hl].
    { apply lookup_lt_Some in Hr. lia. }
    destruct (Hls j l Hl) as [Hr' Hmk]. simpl in Hr', Hmk.
    rewrite C4, Hr in Hr'. injection Hr' as Hr'. rewrite <- Hr', C3 in Hmk.
    eauto.
  - unfold onProgress. cbn. rewrite map_app, Hlog2, Hlog1, map_app. cbn.
    rewrite <- !app_assoc. reflexivity.
Qed.

End CompleteJob.

(** A job in which both images load and every layer can be made returns one
    layer per range, in the order of the ranges, and [this.results] is the
    list it returns, whatever it held before: layer [j] is numbered [j + 1],
    named after [j], and its canvas is the cut for range [j]. *)
Theorem complete_job_has_one_layer_per_range {B : Browser}
    (imageFile : File) (depthSource : DepthSource) (c : BrowserDepthCutter)
    (originalImg depthImg : ImageData) :
  loadImageFromFile imageFile = Ok originalImg ->
  loadDepthSource depthSource = Ok depthImg ->
  (forall j r, depthRanges c !! j = Some r ->
     exists l, makeLayer originalImg (extractDepthField originalImg depthImg)
                         (borderWidth c) j r = Ok l) ->
  exists ls c',
    process imageFile depthSource c = (Ok ls, c') /\
    getAllResults c' = ls /\ length ls = length (depthRanges c) /\
    forall j r, depthRanges c !! j = Some r ->
      exists l, ls !! j = Some l /\
        layer l = (j + 1)%nat /\ filename l = layerFilename j /\
        depthRange l = r /\
        cutByDepthRange originalImg (extractDepthField originalImg depthImg)
                        (min r) (max r) = Ok (canvas l).
Proof.
  intros Ho Hd Hall.
  destruct (process_completes imageFile depthSource c originalImg depthImg
              Ho Hd Hall) as (ls & c' & Hrun & Hres & Hlen & Hls & _).
  exists ls, c'. split; [exact Hrun|]. split; [exact Hres|]. split; [exact Hlen|].
  intros j r Hr. destruct (Hls j r Hr) as (l & Hl & Hmk).
  destruct (makeLayer_fields _ _ _ _ _ _ Hmk) as (F1 & F2 & F3 & _ & _ & F6 & _).
  exists l. auto.
Qed.

Lemma complete_job_has_one_layer_per_range_witness :
  let B := Fixtures.plainBrowser in
  let c := new_BrowserDepthCutter 4 0 0 in
  exists ls c',
    @process B Fixtures.red2x1 (@DepthFile B Fixtures.depth2x1) c = (Ok ls, c') /\
    getAllResults c' = ls /\ length ls = length (depthRanges c) /\
    forall j r, depthRanges c !! j = Some r ->
      exists l, ls !! j = Some l /\
        layer l = (j + 1)%nat /\ filename l = layerFilename j /\
        depthRange l = r /\
        cutByDepthRange Fixtures.red2x1
          (@extractDepthField B Fixtures.red2x1 Fixtures.depth2x1)
          (min r) (max r) = Ok (canvas l).
Proof.
  apply (@complete_job_has_one_layer_per_range Fixtures.plainBrowser
           Fixtures.red2x1 (@DepthFile Fixtures.plainBrowser Fixtures.depth2x1)
           (new_BrowserDepthCutter 4 0 0) Fixtures.red2x1 Fixtures.depth2x1).
  - reflexivity.
  - reflexivity.
  - intros j r Hr.
    apply (@makeLayer_borderless Fixtures.plainBrowser).
    + simpl. lia.
    + vm_compute. lia.
    + intros cv. simpl. eauto.
Defined.

Section Progress.

Variable N : nat.
Hypothesis N_pos : (1 <= N)%nat.

(** The percentage reported for layer [i]. *)
Let g (i : nat) : Q :=
  30 + (inject_Z (Z.of_nat i + 1) / inject_Z (Z.of_nat N)) * 60.

Lemma layer_progress_mono (i j : nat) : (i <= j)%nat -> g i <= g j.
Proof.
  intros L. unfold g.
  assert (M := frac_mono (Z.of_nat N) ltac:(lia)
                 (Z.of_nat i + 1) (Z.of_nat j + 1) ltac:(lia)).
  lra.
Qed.

Lemma layer_progress_bounds (i : nat) : (i < N)%nat -> 30 <= g i /\ g i <= 90.
Proof.
  intros L. unfold g.
  assert (M0 := frac_mono (Z.of_nat N) ltac:(lia) 0 (Z.of_nat i + 1) ltac:(lia)).
  assert (M1 := frac_mono (Z.of_nat N) ltac:(lia)
                  (Z.of_nat i + 1) (Z.of_nat N) ltac:(lia)).
  rewrite (frac_0 (Z.of_nat N)) in M0 by lia.
  rewrite (frac_N (Z.of_nat N)) in M1 by lia.
  split; lra.
Qed.

Lemma layer_progress_sorted (n a : nat) :
  (a + n <= N)%nat ->
  StronglySorted Qle (map g (seq a n) ++ [100]) /\
  Forall (fun p => 30 <= p /\ p <= 100) (map g (seq a n) ++ [100]).
Proof.
  revert a. induction n as [|n IH]; intros a Ha; simpl.
  - split.
    + constructor; constructor.
    + constructor; [lra|constructor].
  - destruct (IH (S a)) as (S1 & S3); [lia|].
    destruct (layer_progress_bounds a) as [B1 B2]; [lia|].
    assert (F : Forall (Qle (g a)) (map g (seq (S a) n) ++ [100])).
    { apply Forall_app_2.
      - apply Forall_forall. intros p Hp. apply list_elem_of_In in Hp.
        apply in_map_iff in Hp as (j & <- & Hj). apply in_seq in Hj.
        apply layer_progress_mono. lia.
      - constructor; [lra|constructor]. }
    split.
    + constructor; assumption.
    + constructor; [lra|exact S3].
Qed.

End Progress.

(** In a job that completes, the percentages passed to the progress callback
    never decrease and stay between 10 and 100. *)
Theorem progress_never_goes_back {B : Browser}
    (imageFile : File) (depthSource : DepthSource) (c : BrowserDepthCutter)
    (originalImg depthImg : ImageData) :
  loadImageFromFile imageFile = Ok originalImg ->
  loadDepthSource depthSource = Ok depthImg ->
  (forall j r, depthRanges c !! j = Some r ->
     exists l, makeLayer originalImg (extractDepthField originalImg depthImg)
                         (borderWidth c) j r = Ok l) ->
  progressLog c = [] ->
  exists ls c',
    process imageFile depthSource c = (Ok ls, c') /\
    StronglySorted Qle (map fst (progressLog c')) /\
    Forall (fun p => 10 <= p /\ p <= 100) (map fst (progressLog c')).
Proof.
  intros Ho Hd Hall Hlog.
  destruct (process_completes imageFile depthSource c originalImg depthImg
              Ho Hd Hall) as (ls & c' & Hrun & _ & _ & _ & Hp).
  exists ls, c'. split; [exact Hrun|].
  rewrite Hp, Hlog. cbn [map app].
  set (N := length (depthRanges c)).
  assert (K : StronglySorted Qle
                (map (fun i => 30 + inject_Z (Z.of_nat i + 1)
                                    / inject_Z (Z.of_nat N) * 60) (seq 0 N) ++ [100]) /\
              Forall (fun p => 30 <= p /\ p <= 100)
                (map (fun i => 30 + inject_Z (Z.of_nat i + 1)
                                    / inject_Z (Z.of_nat N) * 60) (seq 0 N) ++ [100])).
  { destruct N as [|N'].
    - simpl. split; [constructor; constructor|constructor; [lra|constructor]].
    - apply (layer_progress_sorted (S N') ltac:(lia) (S N') 0). lia. }
  destruct K as [S F].
  assert (F10 : forall q, q <= 30 ->
                  Forall (Qle q)
                    (map (fun i => 30 + inject_Z (Z.of_nat i + 1)
                                        / inject_Z (Z.of_nat N) * 60) (seq 0 N) ++ [100])).
  { intros q Hq. eapply Forall_impl; [exact F|]. intros p [L _]. simpl. lra. }
  split.
  - repeat (constructor; [|repeat (constructor; [lra|])]);
      try assumption; try (apply F10; lra).
  - repeat (constructor; [lra|]).
    eapply Forall_impl; [exact F|]. intros p [L U]. simpl. lra.
Qed.

Lemma progress_never_goes_back_witness :
  let B := Fixtures.plainBrowser in
  let c := new_BrowserDepthCutter 4 0 0 in
  exists ls c',
    @process B Fixtures.red2x1 (@DepthFile B Fixtures.depth2x1) c = (Ok ls, c') /\
    StronglySorted Qle (map fst (progressLog c')) /\
    Forall (fun p => 10 <= p /\ p <= 100) (map fst (progressLog c')).
Proof.
  apply (@progress_never_goes_back Fixtures.plainBrowser
           Fixtures.red2x1 (@DepthFile Fixtures.plainBrowser Fixtures.depth2x1)
           (new_BrowserDepthCutter 4 0 0) Fixtures.red2x1 Fixtures.depth2x1).
  - reflexivity.
  - reflexivity.
  - intros j r Hr.
    apply (@makeLayer_borderless Fixtures.plainBrowser).
    + simpl. lia.
    + vm_compute. lia.
    + intros cv. simpl. eauto.
  - reflexivity.
Defined.

(** The whole pipeline, without border and with an encoder that does not
    fail: the job completes, and in layer [j] the alpha of every pixel is the
    alpha of the colour image when range [j] accepts the depth of the pixel,
    and 0 otherwise. *)
Theorem layer_shows_the_pixels_of_its_range {B : Browser}
    (imageFile : File) (depthSource : DepthSource) (c : BrowserDepthCutter)
    (originalImg depthImg : ImageData) :
  loadImageFromFile imageFile = Ok originalImg ->
  loadDepthSource depthSource = Ok depthImg ->
  wf_image originalImg ->
  (borderWidth c <= 0)%Z ->
  (forall cv, is_Some (toBlob cv)) ->
  exists ls c',
    process imageFile depthSource c = (Ok ls, c') /\
    length ls = length (depthRanges c) /\
    forall j r y x,
      depthRanges c !! j = Some r ->
      (y < height originalImg)%nat -> (x < width originalImg)%nat ->
      exists l a d,
        ls !! j = Some l /\
        data originalImg !! alphaIndex (width originalImg) y x = Some a /\
        depthAt (extractDepthField originalImg depthImg) y x = Some d /\
        data (canvas l) !! alphaIndex (width originalImg) y x =
        Some (if accepts r d then a else 0%Z).
Proof.
  intros Ho Hd Wf Hb Hblob.
  assert (Hrows : (height originalImg <=
                   length (extractDepthField originalImg depthImg))%nat)
    by (rewrite extractDepthField_length; lia).
  assert (Hall : forall j r, depthRanges c !! j = Some r ->
            exists l, makeLayer originalImg (extractDepthField originalImg depthImg)
                                (borderWidth c) j r = Ok l).
  { intros j r _. now apply makeLayer_borderless. }
  destruct (process_completes imageFile depthSource c originalImg depthImg
              Ho Hd Hall) as (ls & c' & Hrun & _ & Hlen & Hls & _).
  exists ls, c'. split; [exact Hrun|]. split; [exact Hlen|].
  intros j r y x Hr Hy Hx.
  destruct (Hls j r Hr) as (l & Hl & Hmk).
  destruct (makeLayer_fields _ _ _ _ _ _ Hmk) as (_ & _ & _ & _ & _ & Hcut & _).
  rewrite cutByDepthRange_Ok in Hcut by exact Hrows.
  injection Hcut as Hcut.
  destruct (extractDepthField_depthAt originalImg depthImg y x Hy Hx) as [d Hdep].
  destruct (clear_alpha originalImg (extractDepthField originalImg depthImg)
              (min r) (max r) y x Wf Hy Hx) as (a & Ha & Hout).
  exists l, a, d. split; [exact Hl|]. split; [exact Ha|]. split; [exact Hdep|].
  rewrite <- Hcut. cbn [data]. rewrite Hout, Hdep. unfold accepts.
  destruct (outOfRange (Some d) (min r) (max r)); reflexivity.
Qed.

Lemma layer_shows_the_pixels_of_its_range_witness :
  let B := Fixtures.plainBrowser in
  let c := new_BrowserDepthCutter 4 0 0 in
  exists ls c',
    @process B Fixtures.red2x1 (@DepthFile B Fixtures.depthGray2x1) c =
      (Ok ls, c') /\
    length ls = length (depthRanges c) /\
    forall j r y x,
      depthRanges c !! j = Some r ->
      (y < height Fixtures.red2x1)%nat -> (x < width Fixtures.red2x1)%nat ->
      exists l a d,
        ls !! j = Some l /\
        data Fixtures.red2x1 !! alphaIndex (width Fixtures.red2x1) y x = Some a /\
        depthAt (@extractDepthField B Fixtures.red2x1 Fixtures.depthGray2x1) y x
          = Some d /\
        data (canvas l) !! alphaIndex (width Fixtures.red2x1) y x =
        Some (if accepts r d then a else 0%Z).
Proof.
  apply (@layer_shows_the_pixels_of_its_range Fixtures.plainBrowser
           Fixtures.red2x1 (@DepthFile Fixtures.plainBrowser Fixtures.depthGray2x1)
           (new_BrowserDepthCutter 4 0 0) Fixtures.red2x1 Fixtures.depthGray2x1).
  - reflexivity.
  - reflexivity.
  - apply wf_imageb_spec. reflexivity.
  - simpl. lia.
  - intros cv. simpl. eauto.
Defined.

(** ** File names *)

Section FileNames.
Local Open Scope string_scope.

Lemma lastIndexOf_absent (c : ascii) (s : string) :
  ~ In c (list_ascii_of_string s) -> lastIndexOf c s = None.
Proof.
  induction s as [|a s IH]; simpl; intros H; [reflexivity|].
  rewrite IH by tauto.
  destruct (Ascii.eqb_spec a c) as [->|Ne]; [|reflexivity].
  exfalso. apply H. now left.
Qed.

Lemma lastIndexOf_last (c : ascii) (s t : string) :
  lastIndexOf c t = None ->
  lastIndexOf c (s ++ String c t) = Some (String.length s).
Proof.
  intros H. induction s as [|a s IH]; simpl.
  - now rewrite H, Ascii.eqb_refl.
  - now rewrite IH.
Qed.

Lemma substring_prefix (s t : string) :
  String.substring 0 (String.length s) (s ++ t) = s.
Proof.
  induction s as [|a s IH]; simpl.
  - destruct t; reflexivity.
  - now rewrite IH.
Qed.

Lemma zeros_succ (k : nat) :
  String.concat "" (repeat "0" (S k)) = String "0" (String.concat "" (repeat "0" k)).
Proof. destruct k; reflexivity. Qed.

Lemma length_zeros (k : nat) :
  String.length (String.concat "" (repeat "0" k)) = k.
Proof.
  induction k as [|k IH]; [reflexivity|].
  rewrite zeros_succ. simpl. now rewrite IH.
Qed.

Lemma length_append (s t : string) :
  String.length (s ++ t) = (String.length s + String.length t)%nat.
Proof. induction s as [|a s IH]; simpl; [reflexivity|now rewrite IH]. Qed.

Lemma padStart4_length (s : string) :
  (4 <= String.length (padStart4 s))%nat /\
  (String.length s <= String.length (padStart4 s))%nat.
Proof. unfold padStart4. rewrite length_append, length_zeros. lia. Qed.

(** Reading a padded numeral back: the zeros in front do not count. *)
Lemma decode_zeros (k : nat) (s : string) :
  option_map Nat.of_uint
    (NilEmpty.uint_of_string (String.concat "" (repeat "0" k) ++ s)) =
  option_map Nat.of_uint (NilEmpty.uint_of_string s).
Proof.
  induction k as [|k IH]; [reflexivity|].
  rewrite zeros_succ. simpl. rewrite <- IH.
  destruct (NilEmpty.uint_of_string _); reflexivity.
Qed.

Lemma decode_String_of_nat (i : nat) :
  option_map Nat.of_uint (NilEmpty.uint_of_string (String_of_nat i)) = Some i.
Proof.
  unfold String_of_nat. rewrite <- (DecimalNat.Unsigned.of_to i) at 2.
  destruct (Nat.to_uint i); try reflexivity;
    unfold NilZero.string_of_uint; rewrite NilEmpty.usu; reflexivity.
Qed.

Lemma decode_padStart4 (i : nat) :
  option_map Nat.of_uint (NilEmpty.uint_of_string (padStart4 (String_of_nat i))) =
  Some i.
Proof. unfold padStart4. rewrite decode_zeros. apply decode_String_of_nat. Qed.

Lemma getBaseName_split (base ext : string) :
  base <> "" -> lastIndexOf "."%char ext = None ->
  getBaseName (base ++ String "."%char ext) = base.
Proof.
  intros Hb He. unfold getBaseName.
  rewrite (lastIndexOf_last _ base ext He).
  destruct (Z.ltb_spec 0 (Z.of_nat (String.length base))) as [_|Le].
  - rewrite Nat2Z.id. apply substring_prefix.
  - destruct base; [congruence|simpl in Le; lia].
Qed.

End FileNames.

(** [getBaseName] drops the last extension: for a non-empty [base] and an
    extension without a dot, the base name of [base.ext] is [base]. *)
Theorem getBaseName_drops_last_extension (base ext : string) :
  base <> ""%string ->
  ~ In "."%char (list_ascii_of_string ext) ->
  getBaseName (base ++ "." ++ ext) = base.
Proof.
  intros Hb He. apply getBaseName_split; [exact Hb|].
  now apply lastIndexOf_absent.
Qed.

Lemma getBaseName_drops_last_extension_witness :
  getBaseName ("photo.final" ++ "." ++ "png") = "photo.final"%string.
Proof.
  apply (getBaseName_drops_last_extension "photo.final" "png").
  - discriminate.
  - simpl. intros [H|[H|[H|[]]]]; discriminate H.
Defined.

(** [getBaseName] leaves a name alone when it has no dot, and also when its
    only dot is its first character. *)
Theorem getBaseName_keeps_names_without_extension (s : string) :
  ~ In "."%char (list_ascii_of_string s) ->
  getBaseName s = s /\ getBaseName (String "."%char s) = String "."%char s.
Proof.
  intros H. apply lastIndexOf_absent in H. unfold getBaseName. simpl.
  rewrite H. split; reflexivity.
Qed.

Lemma getBaseName_keeps_names_without_extension_witness :
  getBaseName "gitignore" = "gitignore"%string /\
  getBaseName ".gitignore" = ".gitignore"%string.
Proof.
  apply (getBaseName_keeps_names_without_extension "gitignore").
  simpl. intuition discriminate.
Defined.

(** The file name of a layer is at least four digits followed by [.png];
    its base name is the zero-padded index, and different indices give
    different names. *)
Theorem layer_file_names_are_distinct (i j : nat) :
  getBaseName (layerFilename i) = padStart4 (String_of_nat i) /\
  (4 <= String.length (getBaseName (layerFilename i)))%nat /\
  (layerFilename i = layerFilename j -> i = j).
Proof.
  assert (G : forall k, getBaseName (layerFilename k) = padStart4 (String_of_nat k)).
  { intros k. unfold layerFilename. apply getBaseName_split; [|reflexivity].
    intros E. destruct (padStart4_length (String_of_nat k)) as [L _].
    rewrite E in L. simpl in L. lia. }
  split; [apply G|]. split.
  - rewrite G. apply padStart4_length.
  - intros E. apply (f_equal getBaseName) in E. rewrite !G in E.
    apply (f_equal (fun s => option_map Nat.of_uint (NilEmpty.uint_of_string s))) in E.
    rewrite !decode_padStart4 in E. congruence.
Qed.

(** ** The preview *)

Section Preview.

Variables sw sh mw mh : nat.
Hypothesis sw_pos : (0 < sw)%nat.
Hypothesis sh_pos : (0 < sh)%nat.










End Preview.


(** ** Downloads *)

Section Zip.

Variable res : list Layer.

(** The entry added for the index [i], if any. *)
Let entryAt (i : nat) : list (string * Blob) :=
  match res !! i with
  | Some r => [zipEntry r]
  | None => []
  end.

Lemma selectedIndices_ticked (vis : list bool) (a : nat) (acc : list Z) :
  fold_left
    (fun selected (p : nat * bool) =>
       if snd p then selected ++ [Z.of_nat (fst p)] else selected)
    (combine (seq a (length vis)) vis) acc =
  acc ++ map Z.of_nat (tickedFrom a vis).
Proof.
  revert a acc. induction vis as [|b vs IH]; intros a acc; simpl.
  - now rewrite app_nil_r.
  - rewrite IH. destruct b; simpl; [|reflexivity].
    now rewrite <- app_assoc.
Qed.

Lemma zip_fold_entries (idxs : list nat) (acc : list (string * Blob)) :
  fold_left
    (fun zip index =>
       if (0 <=? index)%Z && (index <? Z.of_nat (length res))%Z
       then match res !! Z.to_nat index with
            | Some result => zip ++ [(filename result, blob result)]
            | None => zip
            end
       else zip)
    (map Z.of_nat idxs) acc =
  acc ++ flat_map entryAt idxs.
Proof.
  revert acc. induction idxs as [|i idxs IH]; intros acc; simpl.
  - now rewrite app_nil_r.
  - rewrite IH, Nat2Z.id. unfold entryAt at 2.
    destruct (Z.leb_spec 0 (Z.of_nat i)) as [_|C]; [|lia].
    destruct (Z.ltb_spec (Z.of_nat i) (Z.of_nat (length res))) as [Lt|Ge]; simpl.
    + destruct (res !! i) as [r|]; [|reflexivity].
      now rewrite <- app_assoc.
    + rewrite (lookup_ge_None_2 res i) by lia. reflexivity.
Qed.

Lemma tickedEntries_nil_r (vis : list bool) : tickedEntries vis [] = [].
Proof. destruct vis; reflexivity. Qed.

Lemma ticked_entries_from (vis : list bool) (a : nat) :
  flat_map entryAt (tickedFrom a vis) = tickedEntries vis (drop a res).
Proof.
  revert a. induction vis as [|b vs IH]; intros a; simpl; [reflexivity|].
  rewrite flat_map_app, IH.
  destruct (res !! a) as [r|] eqn:E.
  - rewrite (drop_S _ _ _ E). simpl.
    destruct b; simpl; [|reflexivity]. unfold entryAt. now rewrite E.
  - rewrite (drop_ge res a) by (now apply lookup_ge_None).
    rewrite (drop_ge res (S a)) by (apply lookup_ge_None in E; lia).
    rewrite tickedEntries_nil_r.
    destruct b; simpl; [|reflexivity]. unfold entryAt. now rewrite E.
Qed.

Lemma entries_of_all (rs pre : list Layer) :
  res = pre ++ rs ->
  flat_map entryAt (seq (length pre) (length rs)) = map zipEntry rs.
Proof.
  revert pre. induction rs as [|r rs IH]; intros pre E; simpl; [reflexivity|].
  unfold entryAt at 1. rewrite E, list_lookup_middle by reflexivity.
  simpl. f_equal.
  specialize (IH (pre ++ [r])). rewrite length_app in IH. simpl in IH.
  rewrite Nat.add_1_r in IH. apply IH. now rewrite <- app_assoc.
Qed.

End Zip.

Lemma visible_entries (vis : list bool) (rs : list Layer) (a : nat) :
  map zipEntry
    (map snd
       (List.filter (fun p : nat * Layer => default false (vis !! fst p))
                    (combine (seq a (length rs)) rs))) =
  tickedEntries (drop a vis) rs.
Proof.
  revert a. induction rs as [|r rs IH]; intros a; simpl.
  - now rewrite tickedEntries_nil_r.
  - destruct (vis !! a) as [b|] eqn:E; simpl.
    + rewrite (drop_S _ _ _ E). simpl.
      destruct b; simpl; now rewrite IH.
    + rewrite IH.
      rewrite (drop_ge vis a) by (now apply lookup_ge_None).
      rewrite (drop_ge vis (S a)) by (apply lookup_ge_None in E; lia).
      reflexivity.
Qed.

(** A call of [process] that returns hands out [this.results] itself. *)
Lemma process_returns_results {B : Browser} (imageFile : File)
    (depthSource : DepthSource) (c this : BrowserDepthCutter)
    (currentResults : list Layer) :
  process imageFile depthSource c = (Ok currentResults, this) ->
  results this = currentResults.
Proof.
  intros H.
  destruct (loadImageFromFile imageFile) as [originalImg|e] eqn:Ho.
  2:{ destruct (process_load_fails imageFile depthSource c) as (e' & c' & E & _).
      - left. eauto.
      - congruence. }
  destruct (loadDepthSource depthSource) as [depthImg|e] eqn:Hd.
  2:{ destruct (process_load_fails imageFile depthSource c) as (e' & c' & E & _).
      - right. eauto.
      - congruence. }
  destruct (process_after_load imageFile depthSource c _ _ Ho Hd)
    as (c1 & _ & _ & _ & E).
  rewrite E in H.
  destruct (processLayers _ _ _ _ _) as [[u|e] c2]; [|discriminate H].
  injection H as <- <-. reflexivity.
Qed.

(** The download of the ticked layers, as the application calls it after a
    job: [currentResults] is what the call of [process] returned and [this]
    is the cutter as that call left it.  When at least one layer is ticked
    and JSZip is loaded, the files put into the ZIP are those of the visible
    layers ([getVisibleResults]), in their order. *)
Theorem ticked_zip_holds_the_visible_layers {B : Browser} (imageFile : File)
    (depthSource : DepthSource) (c this : BrowserDepthCutter)
    (currentResults : list Layer) (layerVisibility : list bool) :
  process imageFile depthSource c = (Ok currentResults, this) ->
  selectedIndices layerVisibility <> [] ->
  downloadSelectedAsZip true this (Some (selectedIndices layerVisibility)) =
  inr (map zipEntry (getVisibleResults currentResults layerVisibility)).
Proof.
  intros Hrun Hne.
  apply process_returns_results in Hrun. subst currentResults.
  assert (S : selectedIndices layerVisibility =
              map Z.of_nat (tickedFrom 0 layerVisibility)).
  { unfold selectedIndices. now rewrite selectedIndices_ticked. }
  unfold downloadSelectedAsZip. simpl negb. cbv iota.
  destruct (selectedIndices layerVisibility) as [|z l] eqn:E; [congruence|].
  f_equal. rewrite S, zip_fold_entries. simpl.
  rewrite ticked_entries_from, drop_0.
  unfold getVisibleResults. rewrite visible_entries, drop_0. reflexivity.
Qed.

Lemma ticked_zip_holds_the_visible_layers_witness :
  let B := Fixtures.plainBrowser in
  let run :=
    @process B Fixtures.red2x1 (@DepthFile B Fixtures.depth2x1)
             (new_BrowserDepthCutter 4 0 0) in
  exists currentResults this,
    run = (Ok currentResults, this) /\
    length currentResults = 4%nat /\
    downloadSelectedAsZip true this
      (Some (selectedIndices [true; false; true; false])) =
    inr (map zipEntry (getVisibleResults currentResults [true; false; true; false])).
Proof.
  intros B run.
  destruct run as [[currentResults|e] this] eqn:E; [|vm_compute in E; discriminate E].
  exists currentResults, this. split; [reflexivity|]. split.
  - vm_compute in E. injection E as <- _. reflexivity.
  - apply (@ticked_zip_holds_the_visible_layers B Fixtures.red2x1
             (@DepthFile B Fixtures.depth2x1) (new_BrowserDepthCutter 4 0 0)
             this currentResults [true; false; true; false]).
    + exact E.
    + discriminate.
Defined.

(** [downloadAllAsZip] puts every result into the ZIP, in order, and is
    [downloadSelectedAsZip] with all the indices, except that without results
    the former gives an empty ZIP and the latter throws. *)
Theorem zip_of_all_is_zip_of_every_index (this : BrowserDepthCutter) :
  downloadAllAsZip true this = inr (map zipEntry (results this)) /\
  (results this <> [] ->
   downloadSelectedAsZip true this
     (Some (map Z.of_nat (seq 0 (length (results this))))) =
   downloadAllAsZip true this) /\
  (results this = [] ->
   downloadSelectedAsZip true this
     (Some (map Z.of_nat (seq 0 (length (results this))))) = inl NothingSelected).
Proof.
  assert (A : downloadAllAsZip true this = inr (map zipEntry (results this))).
  { unfold downloadAllAsZip. simpl.
    now rewrite (fold_left_push (fun r => (filename r, blob r))). }
  split; [exact A|]. split.
  - intros Hne. rewrite A. unfold downloadSelectedAsZip. simpl negb. cbv iota.
    destruct (results this) as [|r rs] eqn:E; [congruence|].
    rewrite <- E.
    destruct (map Z.of_nat (seq 0 (length (results this)))) as [|z l] eqn:M.
    { rewrite E in M. discriminate M. }
    rewrite <- M. f_equal. rewrite zip_fold_entries. simpl.
    apply (entries_of_all (results this) (results this) []). reflexivity.
  - intros ->. reflexivity.
Qed.

(** After a job that completes, [getLayerResult] finds layer [i + 1] at every
    index [i] from 0 to the number of ranges minus one, and answers [null]
    at every other index, negative ones included. *)
Theorem getLayerResult_after_complete_job {B : Browser}
    (imageFile : File) (depthSource : DepthSource) (c : BrowserDepthCutter)
    (originalImg depthImg : ImageData) :
  loadImageFromFile imageFile = Ok originalImg ->
  loadDepthSource depthSource = Ok depthImg ->
  (forall j r, depthRanges c !! j = Some r ->
     exists l, makeLayer originalImg (extractDepthField originalImg depthImg)
                         (borderWidth c) j r = Ok l) ->
  exists ls c',
    process imageFile depthSource c = (Ok ls, c') /\
    forall i : Z,
      ((0 <= i < Z.of_nat (length (depthRanges c)))%Z ->
       exists l, getLayerResult c' i = Some l /\ layer l = (Z.to_nat i + 1)%nat) /\
      ((i < 0 \/ Z.of_nat (length (depthRanges c)) <= i)%Z ->
       getLayerResult c' i = None).
Proof.
  intros Ho Hd Hall.
  destruct (process_completes imageFile depthSource c originalImg depthImg
              Ho Hd Hall) as (ls & c' & Hrun & Hres & Hlen & Hls & _).
  exists ls, c'. split; [exact Hrun|]. intros i.
  unfold getLayerResult, invalidLayerIndex. rewrite Hres, Hlen. split.
  - intros Hi.
    destruct (Z.ltb_spec i 0) as [C|_]; [lia|].
    destruct (Z.leb_spec (Z.of_nat (length (depthRanges c))) i) as [C|_]; [lia|].
    simpl.
    destruct (lookup_lt_is_Some_2 (depthRanges c) (Z.to_nat i)) as [r Hr]; [lia|].
    destruct (Hls _ _ Hr) as (l & Hl & Hmk).
    destruct (makeLayer_fields _ _ _ _ _ _ Hmk) as (F1 & _).
    exists l. split; [exact Hl|exact F1].
  - intros [Hi|Hi].
    + destruct (Z.ltb_spec i 0) as [_|C]; [reflexivity|lia].
    + destruct (Z.leb_spec (Z.of_nat (length (depthRanges c))) i) as [_|C]; [|lia].
      now rewrite orb_true_r.
Qed.

Lemma getLayerResult_after_complete_job_witness :
  let B := Fixtures.plainBrowser in
  let c := new_BrowserDepthCutter 4 0 0 in
  exists ls c',
    @process B Fixtures.red2x1 (@DepthFile B Fixtures.depth2x1) c = (Ok ls, c') /\
    forall i : Z,
      ((0 <= i < Z.of_nat (length (depthRanges c)))%Z ->
       exists l, getLayerResult c' i = Some l /\ layer l = (Z.to_nat i + 1)%nat) /\
      ((i < 0 \/ Z.of_nat (length (depthRanges c)) <= i)%Z ->
       getLayerResult c' i = None).
Proof.
  apply (@getLayerResult_after_complete_job Fixtures.plainBrowser
           Fixtures.red2x1 (@DepthFile Fixtures.plainBrowser Fixtures.depth2x1)
           (new_BrowserDepthCutter 4 0 0) Fixtures.red2x1 Fixtures.depth2x1).
  - reflexivity.
  - reflexivity.
  - intros j r Hr.
    apply (@makeLayer_borderless Fixtures.plainBrowser).
    + simpl. lia.
    + vm_compute. lia.
    + intros cv. simpl. eauto.
Defined.

(** ** Validation and the estimate *)

(** [validateInputs] throws nothing exactly when the image is a file of an
    allowed type and the depth source is either a non-empty string (whose
    content is not looked at) or a file of an allowed type. *)
Theorem validateInputs_accepts (imageFile depthSource : JsValue) :
  validateInputs imageFile depthSource = None <->
  exists imageType,
    imageFile = JsFile imageType /\ In imageType allowedTypes /\
    ((exists s, depthSource = JsString s /\ s <> ""%string) \/
     (exists depthType, depthSource = JsFile depthType /\ In depthType allowedTypes)).
Proof.
  assert (Inc : forall t, includes allowedTypes t = true <-> In t allowedTypes).
  { intros t. unfold includes. rewrite existsb_exists. split.
    - intros (x & Hx & E). apply String.eqb_eq in E. now subst.
    - intros H. exists t. split; [exact H|apply String.eqb_refl]. }
  unfold validateInputs. split.
  - destruct imageFile as [|s0|t|b0];
      cbn [falsy isFile isString fileType negb orb andb];
      rewrite ?orb_true_r; try discriminate.
    destruct depthSource as [|s|t'|b];
      cbn [falsy isFile isString fileType negb orb andb]; try discriminate.
    + destruct (String.eqb_spec s "") as [->|Ne]; [discriminate|].
      destruct (includes allowedTypes t) eqn:E; [|discriminate].
      intros _. exists t. split; [reflexivity|]. split; [now apply Inc|].
      left. eauto.
    + destruct (includes allowedTypes t) eqn:E; [|discriminate].
      cbn [negb]. destruct (includes allowedTypes t') eqn:E'; [|discriminate].
      intros _. exists t. split; [reflexivity|]. split; [now apply Inc|].
      right. exists t'. split; [reflexivity|now apply Inc].
    + destruct b; discriminate.
  - intros (t & -> & Ht & [(s & -> & Hs)|(t' & -> & Ht')]);
      cbn [falsy isFile isString fileType negb orb andb].
    + destruct (String.eqb_spec s "") as [->|Ne]; [congruence|].
      apply Inc in Ht. now rewrite Ht.
    + apply Inc in Ht. apply Inc in Ht'. now rewrite Ht, Ht'.
Qed.

(** The estimate does not decrease when the file or the layer count grows,
    and is at least 2 seconds for a layer count that is not negative. *)
Theorem estimate_grows_with_size_and_layers (this this' : BrowserDepthCutter)
    (fileSize fileSize' : nat) :
  (fileSize <= fileSize')%nat ->
  (layerCount this <= layerCount this')%Z ->
  (estimateProcessingTime this fileSize <=
   estimateProcessingTime this' fileSize')%Z /\
  ((0 <= layerCount this)%Z -> (2 <= estimateProcessingTime this fileSize)%Z).
Proof.
  intros Hs Hl. unfold estimateProcessingTime. cbv zeta.
  assert (E : forall n : nat,
            inject_Z (Z.of_nat n) / (1024 * 1024) ==
            inject_Z (Z.of_nat n) * (1 # 1048576)) by (intros; field).
  assert (S1 : inject_Z (Z.of_nat fileSize) <= inject_Z (Z.of_nat fileSize'))
    by (rewrite <- Zle_Qle; lia).
  assert (S0 : 0 <= inject_Z (Z.of_nat fileSize))
    by (change 0 with (inject_Z 0); rewrite <- Zle_Qle; lia).
  assert (L1 : inject_Z (layerCount this) <= inject_Z (layerCount this'))
    by (rewrite <- Zle_Qle; lia).
  split.
  - apply Math_round_mono. rewrite !E. clear E Hs Hl.
    generalize dependent (inject_Z (Z.of_nat fileSize)).
    generalize dependent (inject_Z (Z.of_nat fileSize')).
    generalize dependent (inject_Z (layerCount this)).
    generalize dependent (inject_Z (layerCount this')).
    intros b' b L1 a' a S1 S0. nra.
  - intros H0.
    assert (L0 : 0 <= inject_Z (layerCount this))
      by (change 0 with (inject_Z 0); rewrite <- Zle_Qle; lia).
    match goal with
    | |- (2 <= Math_round ?x)%Z =>
        assert (M : (Math_round (inject_Z 2) <= Math_round x)%Z)
    end.
    { apply Math_round_mono. rewrite E. change (inject_Z 2) with 2.
      clear E Hs Hl H0 S1 L1.
      generalize dependent (inject_Z (Z.of_nat fileSize)).
      generalize dependent (inject_Z (layerCount this)).
      intros b L0 a S0. nra. }
    now rewrite Math_round_Z in M.
Qed.

Lemma estimate_grows_with_size_and_layers_witness :
  (estimateProcessingTime (new_BrowserDepthCutter 8 1 0) 1000 <=
   estimateProcessingTime (new_BrowserDepthCutter 16 1 0) 5000)%Z /\
  ((0 <= 8)%Z ->
   (2 <= estimateProcessingTime (new_BrowserDepthCutter 8 1 0) 1000)%Z).
Proof.
  apply (estimate_grows_with_size_and_layers
           (new_BrowserDepthCutter 8 1 0) (new_BrowserDepthCutter 16 1 0)
           1000 5000).
  - lia.
  - simpl. lia.
Defined.

(** ** The depth field, once more *)

Lemma depth_below_100_accepted_witness :
  (1 <= 8)%Z /\ 0 <= 1 /\ 0 <= depthOfGray 254 /\ depthOfGray 254 < 100 /\
  exists i r, generateDepthRanges 8 1 !! i = Some r /\
              accepts r (depthOfGray 254) = true.
Proof.
  assert (L : 0 <= depthOfGray 254) by (apply Qle_bool_iff; reflexivity).
  assert (U : depthOfGray 254 < 100) by reflexivity.
  split; [lia|]. split; [lra|]. split; [exact L|]. split; [exact U|].
  apply (depth_below_100_accepted 8 1 (depthOfGray 254)); [lia|lra|exact L|exact U].
Defined.

(** Adjusting the depth image a second time changes nothing: the adjusted
    image already has the size of the colour image. *)
Theorem autoAdjustDepthImage_twice {B : Browser} (originalImg depthImg : ImageData) :
  autoAdjustDepthImage originalImg (autoAdjustDepthImage originalImg depthImg) =
  autoAdjustDepthImage originalImg depthImg /\
  checkSizeMatch originalImg (autoAdjustDepthImage originalImg depthImg) = true.
Proof.
  assert (M : checkSizeMatch originalImg
                (autoAdjustDepthImage originalImg depthImg) = true).
  { unfold autoAdjustDepthImage, resizeImage, checkSizeMatch.
    destruct (Nat.eqb_spec (width originalImg) (width depthImg));
      destruct (Nat.eqb_spec (height originalImg) (height depthImg)); simpl;
      rewrite ?Nat.eqb_refl; try reflexivity;
      apply andb_true_iff; split; apply Nat.eqb_eq; congruence. }
  split; [|exact M].
  unfold autoAdjustDepthImage at 1. rewrite M.
  destruct (autoAdjustDepthImage originalImg depthImg). reflexivity.
Qed.

(** The depth field reads the red channel only: two canvases of the same
    size whose pixels have the same red values give the same depth field,
    whatever their green, blue and alpha values are. *)
Theorem depth_field_reads_red_only (cv cv' : ImageData) :
  width cv = width cv' -> height cv = height cv' ->
  (forall y x, (y < height cv)%nat -> (x < width cv)%nat ->
     channel (data cv) (redIndex (width cv) y x) =
     channel (data cv') (redIndex (width cv) y x)) ->
  convertDepthImageToData cv = convertDepthImageToData cv'.
Proof.
  intros Hw Hh Hred. rewrite !convertDepthImageToData_map, <- Hw, <- Hh.
  apply map_ext_in. intros y Hy. apply in_seq in Hy.
  apply map_ext_in. intros x Hx. apply in_seq in Hx.
  rewrite Hred by lia. reflexivity.
Qed.

Lemma depth_field_reads_red_only_witness :
  convertDepthImageToData (mkImage 1 1 [51; 51; 51; 255]%Z) =
  convertDepthImageToData (mkImage 1 1 [51; 200; 7; 0]%Z).
Proof.
  apply (depth_field_reads_red_only
           (mkImage 1 1 [51; 51; 51; 255]%Z) (mkImage 1 1 [51; 200; 7; 0]%Z)).
  - reflexivity.
  - reflexivity.
  - intros y x Hy Hx. simpl in Hy, Hx.
    assert (y = 0%nat) as -> by lia. assert (x = 0%nat) as -> by lia.
    reflexivity.
Defined.

(** ** The statistics *)

Lemma fold_left_sizes (rs : list Layer) (acc : nat) :
  fold_left (fun sum r => (sum + layerSize r)%nat) rs acc =
  (acc + list_sum (map layerSize rs))%nat.
Proof.
  revert acc. induction rs as [|r rs IH]; intros acc; simpl; [lia|].
  rewrite IH. lia.
Qed.

Lemma Math_round_near (t n : Z) :
  (0 < n)%Z ->
  (2 * t - n < 2 * n * Math_round (inject_Z t / inject_Z n) <= 2 * t + n)%Z.
Proof.
  intros Hn. unfold Math_round.
  set (x := inject_Z t / inject_Z n + (1 # 2)).
  assert (Lo := Qfloor_le x). assert (Hi := Qlt_floor x).
  rewrite inject_Z_succ in Hi.
  set (f := Qfloor x) in *.
  assert (Pn : 0 < inject_Z n)
    by (change 0 with (inject_Z 0); rewrite <- Zlt_Qlt; lia).
  assert (E : inject_Z n * x == inject_Z t + inject_Z n * (1 # 2)).
  { unfold x. field. intros C. rewrite C in Pn. lra. }
  assert (A : inject_Z n * inject_Z f <= inject_Z n * x)
    by (apply Qmult_le_l; assumption).
  assert (Bq : inject_Z n * x < inject_Z n * (inject_Z f + 1))
    by (apply Qmult_lt_l; assumption).
  rewrite E in A, Bq.
  assert (A2 : inject_Z (2 * n * f) <= inject_Z (2 * t + n)).
  { rewrite !inject_Z_plus, !inject_Z_mult. change (inject_Z 2) with 2. nra. }
  assert (B2 : inject_Z (2 * t - n) < inject_Z (2 * n * f)).
  { unfold Z.sub. rewrite !inject_Z_plus, inject_Z_opp, !inject_Z_mult.
    change (inject_Z 2) with 2. nra. }
  rewrite <- Zle_Qle in A2. rewrite <- Zlt_Qlt in B2. lia.
Qed.

(** [getStats] is [null] exactly when there are no results; otherwise it
    counts the results, adds up their sizes, keeps the ranges, and reports as
    average the integer nearest to the true average. *)
Theorem getStats_totals (this : BrowserDepthCutter) :
  (getStats this = None <-> results this = []) /\
  forall st, getStats this = Some st ->
    totalLayers st = length (results this) /\
    totalSize st = list_sum (map layerSize (results this)) /\
    statsRanges st = depthRanges this /\
    (2 * Z.of_nat (totalSize st) - Z.of_nat (totalLayers st)
       < 2 * Z.of_nat (totalLayers st) * avgSize st
       <= 2 * Z.of_nat (totalSize st) + Z.of_nat (totalLayers st))%Z.
Proof.
  unfold getStats. split.
  - destruct (results this) as [|r rs]; simpl; split; congruence.
  - intros st. destruct (results this) as [|r rs] eqn:E; simpl; [discriminate|].
    intros H. injection H as <-. cbn [totalLayers totalSize statsRanges avgSize].
    rewrite fold_left_sizes.
    repeat split; try (simpl; lia).
    + apply (Math_round_near
               (Z.of_nat (layerSize r + list_sum (map layerSize rs)))
               (Z.of_nat (S (length rs)))). lia.
    + apply (Math_round_near
               (Z.of_nat (layerSize r + list_sum (map layerSize rs)))
               (Z.of_nat (S (length rs)))). lia.
Qed.

(** [downloadLayer] and [getLayerResult] agree on the indices: the download
    throws its index error exactly where the lookup answers [null], and
    otherwise it encodes the canvas of the layer that the lookup returns and
    offers it under the file name of that layer. *)
Theorem downloadLayer_follows_getLayerResult {B : Browser}
    (this : BrowserDepthCutter) (layerIndex : Z) :
  (downloadLayer this layerIndex = inl InvalidLayerIndex <->
   getLayerResult this layerIndex = None) /\
  forall l, getLayerResult this layerIndex = Some l ->
    downloadLayer this layerIndex =
    match toBlob (canvas l) with
    | Some blob => inr (filename l, blob)
    | None => inl (EncodingFailed BlobError)
    end.
Proof.
  unfold downloadLayer, getLayerResult, canvasToBlob.
  destruct (invalidLayerIndex this layerIndex) eqn:V.
  - split; [tauto|]. intros l H. discriminate H.
  - destruct (results this !! Z.to_nat layerIndex) as [r|] eqn:E.
    + split.
      * split; [|discriminate].
        destruct (toBlob (canvas r)); discriminate.
      * intros l H. injection H as <-. destruct (toBlob (canvas r)); reflexivity.
    + split; [tauto|]. intros l H. discriminate H.
Qed.
